(** * Inovesa: the Fokker-Planck stencil and the step orchestrator of main()

    A shallow embedding of
    - [vfps::FokkerPlanckMap::FokkerPlanckMap] (the stencil constructor,
      src/unnamed/part_001),
    - [main()] of src/src/main.cpp: the set-up code, the main simulation
      loop and the code after it,
    - the simulation loop of the earlier [main()] of src/unnamed/part_000,
    together with the properties of the stencil and of the call sequence.

    Number model.  [double], [float], [interpol_t], [meshdata_t] and
    [meshaxis_t] values are modelled by exact rationals ([Qc], canonical
    fractions with Leibniz equality): every arithmetic expression is
    transcribed operator by operator, rounding is not modelled, and a
    division by zero is the total division of [Qc].  Unsigned C integers are
    [Z] or [nat] with the wrap-around written out ([u16], [u32]). *)

From Stdlib Require Import ZArith QArith Qcanon Qround Lia String Ascii.
From stdpp Require Import base numbers list.

Local Open Scope Z_scope.

(** ** Machine integers *)

(** [uint16_t] and [unsigned int] (32 bit) conversions. *)
Definition u16 (z : Z) : Z := z mod 65536.
Definition u32 (z : Z) : Z := z mod 4294967296.

(* ===================================================================== *)
(** ** HeritageMap: the stencil storage *)
(* ===================================================================== *)

Module HeritageMap.

(** [typedef struct { unsigned int index; interpol_t weight; } hi;] *)
Record hi : Type := mk_hi { index : Z; weight : Qc }.

(** The pair [{0,0}] the constructors store at the boundaries. *)
Definition sentinel : hi := mk_hi 0 0%Qc.

(** Modelled from the spec: the constructor of [HeritageMap] is not part of
    the sources at hand; it allocates the flat array [_hinfo] of
    [_ip*_size] pairs and the views [_heritage_map1D[q] = _hinfo + q*_ip]
    and [_heritage_map[i] = _heritage_map1D + i*_ysize] ("a flat N·N·K
    array of (sourceIndex, weight) pairs").  [offset] is the position in
    [_hinfo] of [_heritage_map[i][j][k]]. *)
Definition offset (ip ysize i j k : nat) : nat := ((i * ysize + j) * ip + k)%nat.

(** [_heritage_map[i][j][k] = v].  A write outside the allocation is
    undefined behaviour in C++; here it leaves the array unchanged. *)
Definition store (ip ysize : nat) (hinfo : list hi) (i j k : nat) (v : hi)
  : list hi :=
  <[offset ip ysize i j k := v]> hinfo.

(** Modelled from the spec: [HeritageMap::apply] is not part of the sources
    at hand.  "apply() reads input mesh and writes output mesh cells as
    out[k] = Σᵢ wᵢ · in[sᵢ]".  [term] is one summand [in[s] · w] for the
    pair [h = (s, w)]; a pair or an input cell outside the allocation reads
    as zero. *)
Definition term (data_in : list Qc) (h : hi) : Qc :=
  (default 0 (data_in !! Z.to_nat (index h)) * weight h)%Qc.

Definition apply_cell (ip : nat) (hinfo : list hi) (data_in : list Qc)
           (q : nat) : Qc :=
  foldl (fun acc k =>
           (acc + term data_in (default sentinel (hinfo !! (q * ip + k)%nat)))%Qc)
        0%Qc (seq 0 ip).

Definition apply (ip size : nat) (hinfo : list hi) (data_in : list Qc)
  : list Qc :=
  (fun q => apply_cell ip hinfo data_in q) <$> seq 0 size.

(** Sum of the [ip] weights of output cell [q]. *)
Definition weight_sum (ip : nat) (hinfo : list hi) (q : nat) : Qc :=
  foldl (fun acc k =>
           (acc + weight (default sentinel (hinfo !! (q * ip + k)%nat)))%Qc)
        0%Qc (seq 0 ip).

End HeritageMap.

(** Modelled from the spec: [Identity::apply] is not part of the sources at
    hand; the identity map is the "strict pass-through": every output cell
    is the corresponding input cell. *)
Definition Identity_apply (data_in : list Qc) : list Qc := data_in.

(* ===================================================================== *)
(** ** FokkerPlanckMap: the constructor *)
(* ===================================================================== *)

Module FokkerPlanckMap.
Import HeritageMap.

Inductive FPType : Type := none | damping_only | diffusion_only | full.

(** A sequence of writes [_hinfo[p] = v], in program order. *)
Definition exec (ws : list (nat * hi)) (hinfo : list hi) : list hi :=
  foldl (fun m w => <[w.1 := w.2]> m) hinfo ws.

Section Constructor.
(** [in->getDelta(1)] and [in->x(1,j)]: spacing and coordinates of the
    p axis of the input mesh ([PhaseSpace] is not part of the sources). *)
Variable getDelta1 : Qc.
Variable x1 : nat -> Qc.
(** Constructor arguments; [hinfo0] is [_hinfo] as allocated by the base
    class constructor [HeritageMap(in, out, xsize, ysize, 3)]. *)
Variables xsize ysize : Z.
Variable fpt : FPType.
Variable e0 : Qc.
Variable hinfo0 : list hi.

(** [const uint16_t _xsize, _ysize]. *)
Definition _xsize : nat := Z.to_nat (u16 xsize).
Definition _ysize : nat := Z.to_nat (u16 ysize).
Definition _ip : nat := 3.
Definition _size : nat := (_xsize * _ysize)%nat.

Definition e02d : Qc := (e0 / (2 * getDelta1))%Qc.
Definition e02d2 : Qc := (e0 / (getDelta1 * getDelta1))%Qc.
Definition daome : Qc := (1 + e0)%Qc.
Definition diome : Qc := (1 - 2 * e02d2)%Qc.
Definition fptme : Qc := (1 + e0 - 2 * e02d2)%Qc.

(** [i*_ysize+j] in [unsigned int] arithmetic, then [+ d]. *)
Definition src (i j : nat) (d : Z) : Z :=
  u32 (u32 (u32 (Z.of_nat i * Z.of_nat _ysize) + Z.of_nat j) + d).
Definition src0 (i j : nat) : Z :=
  u32 (u32 (Z.of_nat i * Z.of_nat _ysize) + Z.of_nat j).

(** The three assignments [_heritage_map[i][j][0..2] = a, b, c]. *)
Definition store3 (m : list hi) (i j : nat) (a b c : hi) : list hi :=
  store _ip _ysize (store _ip _ysize (store _ip _ysize m i j 0 a) i j 1 b)
        i j 2 c.

(** [for (uint16_t j=1; j< _ysize-1; j++) { ... }]: [j] runs over
    [1 .. _ysize-2] (no turn when [_ysize <= 2]). *)
Definition for_j (body : list hi -> nat -> list hi) (m : list hi) : list hi :=
  foldl body m (seq 1 (_ysize - 2)).

(** [switch (fpt) { ... }] inside the loop over [i]; [FPType] has no value
    for the [default] case. *)
Definition switch_fpt (i : nat) (m : list hi) : list hi :=
  match fpt with
  | none =>
      for_j (fun m j =>
               store3 m i j (mk_hi (src0 i j) 1%Qc)
                            (mk_hi 0 0%Qc)
                            (mk_hi 0 0%Qc)) m
  | damping_only =>
      for_j (fun m j =>
               store3 m i j (mk_hi (src i j (-1)) (e02d * x1 j)%Qc)
                            (mk_hi (src0 i j) daome)
                            (mk_hi (src i j 1) (- e02d * x1 j)%Qc)) m
  | diffusion_only =>
      for_j (fun m j =>
               store3 m i j (mk_hi (src i j (-1)) e02d2)
                            (mk_hi (src0 i j) diome)
                            (mk_hi (src i j 1) e02d2)) m
  | full =>
      for_j (fun m j =>
               store3 m i j (mk_hi (src i j (-1)) (e02d2 + e02d * x1 j)%Qc)
                            (mk_hi (src0 i j) fptme)
                            (mk_hi (src i j 1) (e02d2 - e02d * x1 j)%Qc)) m
  end.

(** The body of [for (unsigned int i=0; i< _xsize; i++)].  When
    [_ysize = 0] the mesh has no rows and every write of the body is out of
    bounds (here: without effect). *)
Definition outer_body (m : list hi) (i : nat) : list hi :=
  let m := store3 m i 0 sentinel sentinel sentinel in
  let m := switch_fpt i m in
  store3 m i (_ysize - 1) sentinel sentinel sentinel.

(** The stencil [_hinfo] after the constructor. *)
Definition construct : list hi :=
  foldl outer_body hinfo0 (seq 0 _xsize).

(** *** The constructor as one sequence of writes *)

(** The three pairs the constructor assigns at the interior row [j] of
    column [i]. *)
Definition interior (i j : nat) : hi * hi * hi :=
  match fpt with
  | none =>
      (mk_hi (src0 i j) 1%Qc, mk_hi 0 0%Qc, mk_hi 0 0%Qc)
  | damping_only =>
      (mk_hi (src i j (-1)) (e02d * x1 j)%Qc,
       mk_hi (src0 i j) daome,
       mk_hi (src i j 1) (- e02d * x1 j)%Qc)
  | diffusion_only =>
      (mk_hi (src i j (-1)) e02d2,
       mk_hi (src0 i j) diome,
       mk_hi (src i j 1) e02d2)
  | full =>
      (mk_hi (src i j (-1)) (e02d2 + e02d * x1 j)%Qc,
       mk_hi (src0 i j) fptme,
       mk_hi (src i j 1) (e02d2 - e02d * x1 j)%Qc)
  end.

Definition pick (k : nat) (abc : hi * hi * hi) : hi :=
  match k with
  | O => abc.1.1
  | S O => abc.1.2
  | _ => abc.2
  end.

Definition writes3 (i j : nat) (abc : hi * hi * hi) : list (nat * hi) :=
  [(offset _ip _ysize i j 0, pick 0 abc);
   (offset _ip _ysize i j 1, pick 1 abc);
   (offset _ip _ysize i j 2, pick 2 abc)].

Definition row_writes (i : nat) : list (nat * hi) :=
  writes3 i 0 (sentinel, sentinel, sentinel)
  ++ flat_map (fun j => writes3 i j (interior i j)) (seq 1 (_ysize - 2))
  ++ writes3 i (_ysize - 1) (sentinel, sentinel, sentinel).

Definition all_writes : list (nat * hi) :=
  flat_map row_writes (seq 0 _xsize).

(** Rows [0] and [_ysize-1] are the boundary rows. *)
Definition boundary (j : nat) : bool :=
  bool_decide (j = 0%nat \/ j = (_ysize - 1)%nat).

(** The pair found at [_heritage_map[i][j][k]] after the constructor. *)
Definition entry (i j k : nat) : hi :=
  if boundary j then sentinel else pick k (interior i j).

End Constructor.

End FokkerPlanckMap.

(* ===================================================================== *)
(** ** main(): options, environment and the calls it issues *)
(* ===================================================================== *)

Module Main.

Local Open Scope string_scope.

Inductive ExitCode : Type := EXIT_SUCCESS | EXIT_FAILURE.

(** The three phase-space meshes owned by [main]. *)
Inductive Mesh : Type := mesh1 | mesh2 | mesh3.

Inductive MapClass : Type :=
| class_RotationMap | class_RFKickMap | class_DriftMap
| class_FokkerPlanckMap | class_Identity
| class_WakePotentialMap | class_WakeFunctionMap.

(** A source map as [main] builds it: its dynamic class and the meshes
    handed to its constructor as [in] and [out]. *)
Record SourceMap : Type :=
  new_SourceMap { map_class : MapClass; map_in : Mesh; map_out : Mesh }.

Inductive clCopyDirection : Type := cpu2dev | dev2cpu.

(** [HDF5File::AppendType] *)
Inductive AppendType : Type := All | Defaults | PhaseSpace.

(** The calls [main] issues on its collaborators, in program order. *)
Inductive Call : Type :=
| printText (msg : string)           (* Display::printText(msg) *)
| printText_fmt (prefix : string)    (* printText(prefix + formatted values) *)
| cerr (msg : string)                (* std::cerr << msg *)
| listCLDevices
| mesh1_syncCLMem (dir : clCopyDirection)
| wkm_syncCLMem (dir : clCopyDirection)
| wkm_update                         (* wkm->update() *)
| wkm_getForce
| xproj_assign                       (* the writes to mesh1's x-projection *)
| mesh1_createFromProjections
| mesh1_normalize
| mesh1_integral
| mesh1_variance (axis : Z)
| mesh1_updateXProjection
| mesh1_updateYProjection
| apply (m : SourceMap)              (* m->apply() *)
| applyTo (m : SourceMap)            (* m->applyTo(trackme) *)
| field_updateCSR
| hdf_file_appendTime (t : Qc)
| hdf_file_append_mesh1 (at_ : AppendType)
| hdf_file_append_field
| hdf_file_append_wkm
| hdf_file_append_trackme
| hdf_file_addParameterToGroup (name : string)
| opts_save
| png_file_write
| psv_createTexture
| psv_delTexture
| bpv_updateLine
| wpv_updateLine
| history_updateLine (outstepnr : Z)
| display_draw
| OCLH_queue_flush.

(** Getters of [ProgramOptions] read by [main] (unsigned values are in
    range of their C type). *)
Record ProgramOptions : Type := {
  getCLDevice : Z;
  getOutFile : string;
  getVerbosity : bool;
  getRenormalizeCharge : Z;
  getGridSize : Z;
  getBeamEnergy : Qc;
  getRevolutionFrequency : Qc;
  getBendingRadius : Qc;
  getHarmonicNumber : Qc;
  getVacuumChamberGap : Qc;
  getRFVoltage : Qc;
  getSyncFreq : Qc;
  getAlpha0 : Qc;
  getHaissinskiIterations : Z;
  getSteps : Z;
  getOutSteps : Z;
  getNRotations : Qc;
  getDampingTime : Qc;
  getStartDistFile : string;
  getImpedanceFile : string;
  getWallConductivity : Qc;
  getWallSusceptibility : Qc;
  getCollimatorRadius : Qc;
  getRotationType : Z;
  getWakeFile : string;
  getParticleTracking : string;
  getSavePhaseSpace : bool
}.

Inductive ParseResult : Type := parse_ok | parse_stop | parse_throws.

(** What [main] learns from the build and from its collaborators. *)
Record Environment : Type := {
  INOVESA_USE_CL : bool;
  INOVESA_USE_GUI : bool;
  INOVESA_USE_HDF5 : bool;
  INOVESA_USE_PNG : bool;
  (** [opts.parse(argc,argv)]: true, false, or an exception. *)
  parse : ParseResult;
  prepareCLEnvironment_throws : bool;
  (** [mesh1->nMeshCells(0)] of a start distribution read from HDF5. *)
  startdist_nMeshCells : Z;
  (** [impedance->nFreqs()] of an impedance read from file. *)
  impedance_nFreqs : Z;
  (** Reading the particle tracking file raises an exception. *)
  trackingfile_throws : bool;
  (** [make_display] returned a display; the plot element was created
      without an exception (an exception while [history] is created also
      resets [wpv]). *)
  display_made : bool;
  psv_made : bool;
  bpv_made : bool;
  wpv_made : bool;
  history_made : bool
}.

(** What the set-up code hands to the simulation loop: the maps
    ([rm2] and [wkm] may be [nullptr]), [OCLH::active], and which plot
    elements are not [nullptr] ([wpv] only if [wkm] is not). *)
Record Objects : Type := {
  rm1 : SourceMap;
  rm2 : option SourceMap;
  fpm : SourceMap;
  wm : SourceMap;
  wkm : option SourceMap;
  OCLH_active : bool;
  bpv : bool;
  wpv : bool;
  history : bool
}.

(** How a run of [main] ends. *)
Inductive Outcome : Type :=
| Returned (code : ExitCode) (trace : list Call)
| Undefined (trace : list Call)      (* a null pointer is dereferenced *)
| OutOfFuel (trace : list Call).     (* the loop is still running *)

Definition trace_of (o : Outcome) : list Call :=
  match o with Returned _ t | Undefined t | OutOfFuel t => t end.

(** *** A monad for the body of [main]: a call log and early exits *)

Inductive Step (A : Type) : Type :=
| Go (a : A) (trace : list Call)
| Halt (o : Outcome).
Arguments Go {A} a trace.
Arguments Halt {A} o.

Definition M (A : Type) : Type := list Call -> Step A.

Definition ret {A} (a : A) : M A := fun t => Go a t.
Definition bind {A B} (m : M A) (f : A -> M B) : M B :=
  fun t => match m t with Go a t' => f a t' | Halt o => Halt o end.
Definition call (c : Call) : M unit := fun t => Go tt (t ++ [c]).
Definition calls (cs : list Call) : M unit := fun t => Go tt (t ++ cs).
Definition exit {A} (code : ExitCode) : M A := fun t => Halt (Returned code t).
Definition undefined {A} : M A := fun t => Halt (Undefined t).
Definition when (b : bool) (m : M unit) : M unit := if b then m else ret tt.

Notation "'let*' x := m 'in' k" := (bind m (fun x => k))
  (at level 10, x name, m at level 100, k at level 200).
Notation "m ;; k" := (bind m (fun _ => k))
  (at level 100, k at level 200, right associativity).

(** The call log of a computation, finished or not. *)
Definition log_of {A} (s : Step A) : list Call :=
  match s with Go _ t => t | Halt o => trace_of o end.

(** The stages of one simulation step: the wake update, the map
    applications and the refresh of the x-projection. *)
Definition is_stage (c : Call) : bool :=
  match c with
  | wkm_update | apply _ | mesh1_updateXProjection => true
  | _ => false
  end.

(** Calls that advance or evaluate the simulation (maps, projections and
    moments of the mesh, the field) or that save results: everything except
    messages, plots and transfers to or from the OpenCL device. *)
Definition is_simulation_call (c : Call) : bool :=
  match c with
  | printText _ | printText_fmt _ | cerr _
  | listCLDevices | mesh1_syncCLMem _ | wkm_syncCLMem _ | OCLH_queue_flush
  | psv_createTexture | psv_delTexture | bpv_updateLine | wpv_updateLine
  | history_updateLine _ | display_draw => false
  | _ => true
  end.

Definition is_normalize (c : Call) : bool :=
  match c with mesh1_normalize => true | _ => false end.
Definition is_integral (c : Call) : bool :=
  match c with mesh1_integral => true | _ => false end.
Definition is_wkm_update (c : Call) : bool :=
  match c with wkm_update => true | _ => false end.

(** A call that is only a message, a plot or a device transfer. *)
Definition quiet (c : Call) : Prop := is_simulation_call c = false.

(** A computation that issues quiet calls only and, when it leaves
    [main], returns [EXIT_SUCCESS] unless option parsing threw. *)
Definition quiet_M (env : Environment) {A} (m : M A) : Prop :=
  forall t, Forall quiet t ->
    match m t with
    | Go _ t' => Forall quiet t'
    | Halt (Returned code t') =>
        Forall quiet t' /\ (parse env <> parse_throws -> code = EXIT_SUCCESS)
    | Halt _ => False
    end.

(** *** Helpers that are not part of the sources at hand *)

(** The double quote character inside a message. *)
Definition dq : string := String (ascii_of_nat 34) EmptyString.

(** Modelled from the spec: [isOfFileType(ending, fname)] is not part of the
    sources at hand; [fname] is longer than [ending] and ends with it
    ("check for file ending .png"). *)
Definition isOfFileType (ending fname : string) : bool :=
  (String.length ending <? String.length fname)%nat
  && String.eqb (substring (String.length fname - String.length ending)
                           (String.length ending) fname) ending.

(** [M_PI] of <cmath>, the double nearest to pi. *)
Definition M_PI : Qc := Q2Qc (884279719003555 # 281474976710656).

(** [a < b] and [a <= b] on numbers. *)
Definition ltb (a b : Qc) : bool := negb (Qle_bool b a).
Definition leb (a b : Qc) : bool := Qle_bool a b.

(** *** The program

    [main] is transcribed as a computation in [M] that logs the calls it
    issues on the display, the meshes, the maps, the field and the output
    files.  Not logged are the time stamp and the log file of the start-up,
    the search for the highest peak of the initial distribution, the reading
    of the tracking file and the [delete]s at the end; values that are only
    printed or saved (shielding parameter, thresholds, ...) are not
    computed. *)

Section Program.
(** Conversion to [float] (rounding to single precision), [std::sqrt]
    and [physcons::c]: the floating-point unit, the C library and
    defines.hpp are not part of the sources at hand. *)
Variable to_float : Qc -> Qc.
Variable std_sqrt : Qc -> Qc.
Variable physcons_c : Qc.

Variable opts : ProgramOptions.
Variable env : Environment.

(** **** Constants derived from the options (main.cpp, lines 131-200) *)

Definition renormalize : Z := getRenormalizeCharge opts.
Definition ps_size : Z := getGridSize opts.
Definition E0 : Qc := getBeamEnergy opts.
Definition f_rev : Qc := getRevolutionFrequency opts.
Definition R_tmp : Qc := getBendingRadius opts.
Definition R_bend : Qc :=
  if ltb 0 R_tmp then R_tmp else (physcons_c / (2 * M_PI * f_rev))%Qc.
Definition f0 : Qc :=
  if leb R_tmp 0 then f_rev else (physcons_c / (2 * M_PI * R_bend))%Qc.
Definition isoscale : Qc := (f_rev / f0)%Qc.
Definition H_unscaled : Qc := getHarmonicNumber opts.
Definition gap : Qc := getVacuumChamberGap opts.
Definition V : Qc := getRFVoltage opts.

(** "positive f_s will be used, negative imply usage of alpha0" *)
Definition fs_tmp : Qc :=
  if ltb (getSyncFreq opts) 0
  then (f_rev * std_sqrt (to_float (getAlpha0 opts) * H_unscaled * V
                          / (2 * M_PI * E0)))%Qc
  else getSyncFreq opts.
Definition fs_unscaled : Qc := fs_tmp.
Definition fs : Qc := (fs_unscaled / isoscale)%Qc.

Definition haisi : Z := getHaissinskiIterations opts.

(** [const unsigned int steps = std::max(opts.getSteps(),1u);] *)
Definition steps : Z := Z.max (getSteps opts) 1.
Definition outstep : Z := getOutSteps opts.
Definition rotations : Qc := getNRotations opts.
Definition t_d : Qc := (isoscale * getDampingTime opts)%Qc.

(** [const double dt = 1.0/(fs*steps);] *)
Definition dt_divisor : Qc := (fs * Qc_of_Z steps)%Qc.
Definition dt : Qc := (1 / dt_divisor)%Qc.

(** [const meshaxis_t angle = 2*M_PI/steps;] *)
Definition angle_divisor : Qc := Qc_of_Z steps.
Definition angle : Qc := to_float (2 * M_PI / angle_divisor)%Qc.

Definition startdistfile : string := getStartDistFile opts.
Definition ofname : string := getOutFile opts.
Definition verbose : bool := getVerbosity opts.

(** **** Start-up (lines 68-121) *)

Definition parse_options : M unit :=
  match parse env with
  | parse_ok => ret tt
  | parse_stop => exit EXIT_SUCCESS
  | parse_throws => call (cerr "error: ") ;; exit EXIT_FAILURE
  end.

Definition started_message : M unit :=
  when (negb (INOVESA_USE_CL env) || (0 <=? getCLDevice opts)%Z)
    (call (printText_fmt "Started Inovesa (") ;;
     when (negb (String.eqb ofname "/dev/null"))
       (call (printText ("Will create log at " ++ dq ++ ofname
                         ++ ".log" ++ dq ++ ".")))).

(** [display != nullptr] after [make_display]. *)
Definition display : bool := INOVESA_USE_GUI env && display_made env.

(** Returns [OCLH::active]. *)
Definition opencl_setup : M bool :=
  if INOVESA_USE_CL env then
    if (getCLDevice opts <? 0)%Z then
      call listCLDevices ;; exit EXIT_SUCCESS
    else if (0 <? getCLDevice opts)%Z then
      if prepareCLEnvironment_throws env then
        call (printText_fmt EmptyString) ;;
        call (printText "Will fall back to sequential version.") ;;
        ret false
      else ret true
    else ret false
  else ret false.

(** **** Diagnostics (lines 207-266) *)

Definition shielding_messages : M unit :=
  when (negb (Qc_eq_bool gap 0) && verbose)
    (call (printText_fmt "Shielding parameter (g=gap):   ") ;;
     call (printText_fmt "Shielding parameter (h=height/2): ") ;;
     call (printText_fmt "CSR strength: ") ;;
     call (printText_fmt "BBT (scaling-law) threshold current at ")).

Definition verbose_messages : M unit :=
  when verbose
    (call (printText_fmt "Synchrotron Frequency: ") ;;
     call (printText_fmt "Damping beta: ") ;;
     call (printText_fmt "Doing ") ;;
     call (printText_fmt "Maximum rotation offset is ")).

(** **** The initial distribution (lines 268-310) *)

Definition make_mesh1 : M unit :=
  if (String.length startdistfile <=? 4)%nat then
    when (ps_size =? 0)%Z
      (call (printText ("Please give file for initial distribution "
                        ++ "or size of target mesh > 0.")))
  else
    call (printText ("Reading in initial distribution from: " ++ dq
                     ++ startdistfile ++ dq)) ;;
    if INOVESA_USE_PNG env && isOfFileType ".png" startdistfile then
      ret tt
    else if INOVESA_USE_HDF5 env
            && (isOfFileType ".h5" startdistfile
                || isOfFileType ".hdf5" startdistfile) then
      if negb (ps_size =? startdist_nMeshCells env)%Z then
        call (cerr (startdistfile ++ " does not match set GridSize.")) ;;
        exit EXIT_SUCCESS
      else call (mesh1_syncCLMem cpu2dev)
    else if isOfFileType ".txt" startdistfile then
      ret tt
    else
      call (printText "Unknown format of input file. Will now quit.") ;;
      exit EXIT_SUCCESS.

(** [psv != nullptr] (lines 321-340). *)
Definition psv : bool := display && psv_made env.

(** The phase space view is created and drawn, or the exception is
    reported. *)
Definition make_psv : M unit :=
  when display
    (if psv_made env then call psv_createTexture ;; call display_draw
     else call (cerr EmptyString)).

Definition particles_message : M unit :=
  when verbose (call (printText_fmt "Maximum particles per grid cell is ")).

(** **** The impedance (lines 351-394) *)

Definition resistive_wall : bool :=
  ltb 0 (getWallConductivity opts) && leb (-1) (getWallSusceptibility opts).

Definition make_impedance : M unit :=
  if String.eqb (getImpedanceFile opts) EmptyString then
    if ltb 0 gap then
      call (printText "Will use parallel plates CSR impedance.") ;;
      when resistive_wall
        (call (printText "... with added resistive wall impedance.")) ;;
      when (ltb 0 (getCollimatorRadius opts))
        (call (printText "... with added collimator."))
    else
      call (printText "Will use free space CSR impedance.") ;;
      when resistive_wall
        (call (printText ("Resistive wall impedance "
                          ++ "is ignored in free space.")))
  else
    call (printText ("Reading impedance from: " ++ dq
                     ++ getImpedanceFile opts ++ dq)) ;;
    when (impedance_nFreqs env <? ps_size)%Z
      (call (printText ("No valid impedance file. " ++ "Will now quit.")) ;;
       exit EXIT_SUCCESS).

(** **** The source maps (lines 399-472) *)

Definition rotationtype : Z := getRotationType opts.

Definition make_rotation : M (SourceMap * option SourceMap) :=
  if (rotationtype =? 0)%Z then
    call (printText "Initializing RotationMap.") ;;
    ret (new_SourceMap class_RotationMap mesh1 mesh3, None)
  else if (rotationtype =? 1)%Z then
    call (printText "Building RotationMap.") ;;
    ret (new_SourceMap class_RotationMap mesh2 mesh3, None)
  else
    call (printText "Building RFKickMap.") ;;
    call (printText "Building DriftMap.") ;;
    ret (new_SourceMap class_RFKickMap mesh2 mesh1,
         Some (new_SourceMap class_DriftMap mesh1 mesh3)).

Definition e1 : Qc :=
  if ltb 0 t_d then (2 / (fs * t_d * Qc_of_Z steps))%Qc else 0%Qc.

Definition make_fpm : M SourceMap :=
  if ltb 0 e1 then
    call (printText "Building FokkerPlanckMap.") ;;
    ret (new_SourceMap class_FokkerPlanckMap mesh3 mesh1)
  else ret (new_SourceMap class_Identity mesh3 mesh1).

Definition wakefile : string := getWakeFile opts.

(** Returns [wkm]. *)
Definition make_wkm : M (option SourceMap) :=
  if (4 <? String.length wakefile)%nat then
    call (printText ("Reading WakeFunction from " ++ wakefile ++ ".")) ;;
    ret (Some (new_SourceMap class_WakeFunctionMap mesh1 mesh2))
  else
    call (printText "Calculating WakePotential.") ;;
    if negb (Qc_eq_bool gap 0) then
      call (printText "Building WakeKickMap.") ;;
      ret (Some (new_SourceMap class_WakePotentialMap mesh1 mesh2))
    else ret None.

(** [if (wkm != nullptr) wm = wkm; else wm = new Identity(mesh1,mesh2,..)] *)
Definition make_wm (wkm : option SourceMap) : SourceMap :=
  match wkm with
  | Some m => m
  | None => new_SourceMap class_Identity mesh1 mesh2
  end.

(** **** Particle tracking and plots (lines 474-525) *)

Definition load_tracking : M unit :=
  when (negb (String.eqb (getParticleTracking opts) EmptyString)
        && negb (String.eqb (getParticleTracking opts) "/dev/null"))
    (when (trackingfile_throws env)
       (call (cerr EmptyString) ;;
        call (printText "Will not do particle tracking.")) ;;
     call (printText_fmt "Will do particle tracking with ")).

(** The plot elements [bpv], [wpv] (only with a wake-kick map) and
    [history] are created, or the exceptions are reported. *)
Definition make_plots (wkm : option SourceMap) : M unit :=
  when display
    (when (negb (bpv_made env)) (call (cerr EmptyString)) ;;
     when (bool_decide (is_Some wkm) && negb (wpv_made env))
       (call (cerr EmptyString)) ;;
     when (negb (history_made env)) (call (cerr EmptyString))).

(** **** Set-up as a whole *)

(** Everything before the impedance is built; returns [OCLH::active]. *)
Definition before_impedance : M bool :=
  parse_options ;;
  started_message ;;
  let* active := opencl_setup in
  shielding_messages ;;
  verbose_messages ;;
  make_mesh1 ;;
  make_psv ;;
  particles_message ;;
  ret active.

Definition setup : M Objects :=
  let* active := before_impedance in
  make_impedance ;;
  let* rm := make_rotation in
  let* fpm := make_fpm in
  let* wkm := make_wkm in
  load_tracking ;;
  make_plots wkm ;;
  ret {| rm1 := rm.1; rm2 := rm.2; fpm := fpm;
         wm := make_wm wkm; wkm := wkm;
         OCLH_active := active;
         bpv := display && bpv_made env;
         wpv := display && bool_decide (is_Some wkm) && wpv_made env
                && history_made env;
         history := display && history_made env |}.

(** **** "Draft for a Haissinski solver" (lines 527-574) *)

Definition haissinski_turn (o : Objects) : M unit :=
  match wkm o with
  | None => undefined
  | Some _ =>
      call wkm_update ;;
      call wkm_getForce ;;
      call xproj_assign ;;
      call mesh1_createFromProjections ;;
      when psv (call psv_createTexture) ;;
      when (bpv o) (call bpv_updateLine) ;;
      when (wpv o) (call wpv_updateLine) ;;
      (if display then call display_draw else undefined) ;;
      when psv (call psv_delTexture)
  end.

Fixpoint repeat_M (n : nat) (m : M unit) : M unit :=
  match n with
  | O => ret tt
  | S n' => m ;; repeat_M n' m
  end.

Definition haissinski (o : Objects) : M unit :=
  repeat_M (Z.to_nat haisi) (haissinski_turn o) ;;
  when (INOVESA_USE_CL env && OCLH_active o)
    (call (mesh1_syncCLMem cpu2dev)).

(** **** Preparation to save results (lines 578-619) *)

(** [hdf_file != nullptr] *)
Definition hdf_file : bool :=
  INOVESA_USE_HDF5 env
  && (isOfFileType ".h5" ofname || isOfFileType ".hdf5" ofname).

Definition png_out : bool :=
  INOVESA_USE_PNG env && isOfFileType ".png" ofname.

Definition h5save : AppendType :=
  if getSavePhaseSpace opts then All else Defaults.

Definition prepare_output : M unit :=
  (if hdf_file then
     call opts_save ;;
     call (printText ("Saved configuiration to " ++ dq ++ ofname
                      ++ ".cfg" ++ dq ++ ".")) ;;
     call (printText ("Will save results to " ++ dq ++ ofname ++ dq
                      ++ ".")) ;;
     call opts_save ;;
     call (hdf_file_addParameterToGroup "CSRStrength") ;;
     call (hdf_file_addParameterToGroup "ShieldingParameter")
   else if png_out then
     call opts_save ;;
     call (printText ("Saved configuiration to " ++ dq ++ ofname
                      ++ ".cfg" ++ dq ++ ".")) ;;
     call (printText ("Will save results to " ++ dq ++ ofname ++ dq
                      ++ "."))
   else call (printText "Will not save results.")) ;;
  when (hdf_file && negb (getSavePhaseSpace opts))
    (call (hdf_file_append_mesh1 PhaseSpace)).

(** **** The first status line (lines 623-642) *)

Definition first_status : M unit :=
  call (printText "Starting the simulation.") ;;
  call (printText "Starting the simulation.") ;;
  call mesh1_updateXProjection ;;
  call mesh1_integral ;;
  call mesh1_updateYProjection ;;
  call (mesh1_variance 1) ;;
  call (printText_fmt EmptyString).

(** **** The main simulation loop (lines 648-735) *)

(** [i%outstep == 0], guarded by [outstep > 0]. *)
Definition output_due (i : Z) : bool :=
  (0 <? outstep)%Z && (i mod outstep =? 0)%Z.

(** [i%renormalize == 0], guarded by [renormalize > 0]. *)
Definition renormalize_due (i : Z) : bool :=
  (0 <? renormalize)%Z && (i mod renormalize =? 0)%Z.

Definition maybe {A} (b : bool) (cs : list A) : list A :=
  if b then cs else [].

(** The calls of the block [if (outstep > 0 && i%outstep == 0) {...}];
    [outstepnr] is the counter after [outstepnr++]. *)
Definition output_block (o : Objects) (i outstepnr : Z) : list Call :=
  ([mesh1_variance 0; mesh1_updateYProjection; mesh1_variance 1]
  ++ maybe (INOVESA_USE_CL env && OCLH_active o)
       ([mesh1_syncCLMem dev2cpu]
        ++ maybe (bool_decide (is_Some (wkm o))) [wkm_syncCLMem dev2cpu])
  ++ maybe hdf_file
       ([hdf_file_appendTime (Qc_of_Z i / Qc_of_Z steps)%Qc;
         hdf_file_append_mesh1 h5save;
         field_updateCSR;
         hdf_file_append_field]
        ++ maybe (bool_decide (is_Some (wkm o))) [hdf_file_append_wkm]
        ++ [hdf_file_append_trackme])
  ++ maybe display
       (maybe psv [psv_createTexture]
        ++ maybe (bpv o) [bpv_updateLine]
        ++ maybe (wpv o) [wpv_updateLine]
        ++ maybe (history o)
             (maybe (negb hdf_file) [field_updateCSR]
              ++ [history_updateLine outstepnr])
        ++ [display_draw]
        ++ maybe psv [psv_delTexture])
  ++ [printText_fmt EmptyString])%list.

(** One turn of the loop at step index [i]: the calls it issues and the
    new value of [outstepnr]. *)
Definition loop_body (o : Objects) (i outstepnr : Z) : list Call * Z :=
  let outstepnr' :=
    if output_due i then u32 (outstepnr + 1) else outstepnr in
  ((maybe (bool_decide (is_Some (wkm o))) [wkm_update]
   ++ (if renormalize_due i then [mesh1_normalize] else [mesh1_integral])
   ++ maybe (output_due i) (output_block o i outstepnr')
   ++ [apply (wm o); applyTo (wm o)]
   ++ [apply (rm1 o); applyTo (rm1 o)]
   ++ match rm2 o with
      | Some m => [apply m; applyTo m]
      | None => []
      end
   ++ [apply (fpm o); applyTo (fpm o)]
   ++ [mesh1_updateXProjection])%list,
   outstepnr').

(** [steps*rotations]: [steps] is converted to [float], the product is
    a [float]. *)
Definition loop_bound : Qc :=
  to_float (to_float (Qc_of_Z steps) * rotations)%Qc.

(** [i<steps*rotations], with [i] converted to [float]. *)
Definition loop_test (i : Z) : bool :=
  ltb (to_float (Qc_of_Z i)) loop_bound.

(** [for (unsigned int i=0, outstepnr=0; i<steps*rotations; i++) {...}]
    from the state [(i, outstepnr)]; returns the number of turns taken. *)
Fixpoint main_loop (fuel : nat) (o : Objects) (i outstepnr : Z)
         (turns : nat) : M nat :=
  match fuel with
  | O => fun t => Halt (OutOfFuel t)
  | S fuel' =>
      if loop_test i then
        calls (loop_body o i outstepnr).1 ;;
        main_loop fuel' o (u32 (i + 1)) (loop_body o i outstepnr).2
                  (S turns)
      else ret turns
  end.

(** The calls of [k] consecutive turns starting in state
    [(i, outstepnr)]. *)
Fixpoint turns_trace (k : nat) (o : Objects) (i outstepnr : Z)
  : list Call :=
  match k with
  | O => []
  | S k' =>
      ((loop_body o i outstepnr).1
       ++ turns_trace k' o (u32 (i + 1)) (loop_body o i outstepnr).2)%list
  end.

(** **** After the loop (lines 737-808) *)

Definition save_final (o : Objects) : M unit :=
  when hdf_file
    (when (bool_decide (is_Some (wkm o))) (call wkm_update) ;;
     (if (0 <? renormalize)%Z then call mesh1_normalize
      else call mesh1_integral) ;;
     call (mesh1_variance 0) ;;
     call mesh1_updateYProjection ;;
     call (mesh1_variance 1) ;;
     when (INOVESA_USE_CL env && OCLH_active o)
       (call (mesh1_syncCLMem dev2cpu) ;;
        when (bool_decide (is_Some (wkm o)))
          (call (wkm_syncCLMem dev2cpu))) ;;
     call (hdf_file_appendTime rotations) ;;
     call (hdf_file_append_mesh1 All) ;;
     call field_updateCSR ;;
     call hdf_file_append_field ;;
     when (bool_decide (is_Some (wkm o))) (call hdf_file_append_wkm) ;;
     call hdf_file_append_trackme).

Definition finish (o : Objects) : M unit :=
  save_final o ;;
  when png_out (call png_file_write) ;;
  call (printText_fmt EmptyString) ;;
  when (INOVESA_USE_CL env && OCLH_active o) (call OCLH_queue_flush) ;;
  call (printText "Finished.") ;;
  exit EXIT_SUCCESS.

(** **** [int main(int argc, char** argv)] *)

Definition main_body (fuel : nat) : M unit :=
  let* o := setup in
  haissinski o ;;
  prepare_output ;;
  first_status ;;
  let* _turns := main_loop fuel o 0 0 0 in
  finish o.

Definition main (fuel : nat) : Outcome :=
  match main_body fuel [] with
  | Go _ t => Returned EXIT_SUCCESS t
  | Halt o => o
  end.

End Program.

End Main.

(* ===================================================================== *)
(** ** The simulation loop of the earlier main() (src/unnamed/part_000) *)
(* ===================================================================== *)

Module LegacyMain.

Inductive Call : Type :=
| mesh_syncCLMem_dev2cpu
| file_append
| display_createTexture
| display_draw
| display_delTexture
| cout_progress (i : Z)
| rm_apply
| fpm_apply.

Section Loop.
Variable to_float : Qc -> Qc.
(** [INOVESA_USE_CL], [OCLH::active], [INOVESA_USE_GUI],
    [opts.showPhaseSpace()]. *)
Variables INOVESA_USE_CL OCLH_active INOVESA_USE_GUI showPhaseSpace : bool.
(** [opts.getSteps()], [opts.getOutSteps()], [opts.getNRotations()]. *)
Variables steps outstep : Z.
Variable rotations : Qc.

(** One turn of the loop; [None] when [i%outstep] divides by zero. *)
Definition loop_body (i : Z) : option (list Call) :=
  if (outstep =? 0)%Z then None
  else
    Some ((if (i mod outstep =? 0)%Z then
             (if INOVESA_USE_CL && OCLH_active
              then [mesh_syncCLMem_dev2cpu] else [])
             ++ [file_append]
             ++ (if INOVESA_USE_GUI && showPhaseSpace
                 then [display_createTexture; display_draw;
                       display_delTexture]
                 else [cout_progress i])
           else [])
          ++ [rm_apply; fpm_apply]).

(** [i<=steps*rotations] *)
Definition loop_test (i : Z) : bool :=
  Main.leb (to_float (Qc_of_Z i))
           (to_float (to_float (Qc_of_Z steps) * rotations)%Qc).

(** [for (unsigned int i=0;i<=steps*rotations;i++) {...}]: the calls
    issued and the number of turns taken; [None] when the fuel runs out
    or the behaviour is undefined. *)
Fixpoint main_loop (fuel : nat) (i : Z) (turns : nat) (t : list Call)
  : option (nat * list Call) :=
  match fuel with
  | O => None
  | S fuel' =>
      if loop_test i then
        match loop_body i with
        | Some cs => main_loop fuel' (u32 (i + 1)) (S turns) (t ++ cs)
        | None => None
        end
      else Some (turns, t)
  end.

(** The calls of [k] consecutive turns starting at step index [i]
    (for [outstep > 0]). *)
Fixpoint turns_trace (k : nat) (i : Z) : list Call :=
  match k with
  | O => []
  | S k' => default [] (loop_body i) ++ turns_trace k' (u32 (i + 1))
  end.

End Loop.

End LegacyMain.

(* ===================================================================== *)
(** ** Concrete configurations *)
(* ===================================================================== *)

Module Examples.
Import Main.
Local Open Scope string_scope.

(** Conversion to [float] of a value that is representable. *)
Definition exact (x : Qc) : Qc := x.

(** [std::sqrt] rounded down to 52 binary digits after the point of the
    denominator. *)
Definition sqrt_down (x : Qc) : Qc :=
  Q2Qc (Z.sqrt (Qnum x * Zpos (Qden x) * 2 ^ 104)
        # (Qden x * 2 ^ 52)%positive).

(** The speed of light in m/s. *)
Definition c : Qc := Qc_of_Z 299792458.

(** A ring with [f_rev = 2.7 MHz], [E0 = 1.3 GeV], [V = 1 MV], harmonic
    number 184 and a damping time of 10 ms, on a 256 x 256 grid, with
    rotation type 2 (RF kick and drift). *)
Definition options (steps : Z) (rotations : Qc) (renormalize : Z)
           (gap f_s : Qc) (impedancefile wakefile : string)
  : ProgramOptions :=
  {| getCLDevice := 0;
     getOutFile := "/dev/null";
     getVerbosity := false;
     getRenormalizeCharge := renormalize;
     getGridSize := 256;
     getBeamEnergy := Qc_of_Z 1300000000;
     getRevolutionFrequency := Qc_of_Z 2700000;
     getBendingRadius := (-1)%Qc;
     getHarmonicNumber := Qc_of_Z 184;
     getVacuumChamberGap := gap;
     getRFVoltage := Qc_of_Z 1000000;
     getSyncFreq := f_s;
     getAlpha0 := Q2Qc (4 # 10000);
     getHaissinskiIterations := 0;
     getSteps := steps;
     getOutSteps := 100;
     getNRotations := rotations;
     getDampingTime := Q2Qc (1 # 100);
     getStartDistFile := EmptyString;
     getImpedanceFile := impedancefile;
     getWallConductivity := 0%Qc;
     getWallSusceptibility := 0%Qc;
     getCollimatorRadius := 0%Qc;
     getRotationType := 2;
     getWakeFile := wakefile;
     getParticleTracking := EmptyString;
     getSavePhaseSpace := false |}.

(** A build without OpenCL, GUI, HDF5 and PNG; the options parse; an
    impedance file, if read, yields [nFreqs] samples. *)
Definition environment (nFreqs : Z) : Environment :=
  {| INOVESA_USE_CL := false;
     INOVESA_USE_GUI := false;
     INOVESA_USE_HDF5 := false;
     INOVESA_USE_PNG := false;
     parse := parse_ok;
     prepareCLEnvironment_throws := false;
     startdist_nMeshCells := 256;
     impedance_nFreqs := nFreqs;
     trackingfile_throws := false;
     display_made := false;
     psv_made := false;
     bpv_made := false;
     wpv_made := false;
     history_made := false |}.

(** 1000 steps per period, 2 periods, a gap of 32 mm: a wake-kick map is
    built. *)
Definition opts_gap : ProgramOptions :=
  options 1000 (Qc_of_Z 2) 0 (Q2Qc (32 # 1000)) (Qc_of_Z 8000)
          EmptyString EmptyString.

(** As before with [gap = 0] and a single step in all: no wake-kick map
    is built. *)
Definition opts_nogap : ProgramOptions :=
  options 1 1%Qc 0 0%Qc (Qc_of_Z 8000) EmptyString EmptyString.

(** One step per period and half a period. *)
Definition opts_half : ProgramOptions :=
  options 1 (Q2Qc (1 # 2)) 0 0%Qc (Qc_of_Z 8000) EmptyString EmptyString.

(** Four steps per period and half a period. *)
Definition opts_four : ProgramOptions :=
  options 4 (Q2Qc (1 # 2)) 0 0%Qc (Qc_of_Z 8000) EmptyString EmptyString.

(** The impedance is read from a file. *)
Definition opts_file : ProgramOptions :=
  options 1000 1%Qc 0 0%Qc (Qc_of_Z 8000) "Z.dat" EmptyString.

(** Zero steps and a synchrotron frequency of zero are configured. *)
Definition opts_zero : ProgramOptions :=
  options 0 1%Qc 0 0%Qc 0%Qc EmptyString EmptyString.

(** The objects set-up builds for [opts_nogap]. *)
Definition objects_nogap : Objects :=
  {| rm1 := new_SourceMap class_RFKickMap mesh2 mesh1;
     rm2 := Some (new_SourceMap class_DriftMap mesh1 mesh3);
     fpm := new_SourceMap class_FokkerPlanckMap mesh3 mesh1;
     wm := new_SourceMap class_Identity mesh1 mesh2;
     wkm := None;
     OCLH_active := false;
     bpv := false;
     wpv := false;
     history := false |}.

End Examples.

(* ===================================================================== *)
(** ** Observations on runs of main() *)
(* ===================================================================== *)

Module Observe.
Import Main.

(** [m->apply()] for some map [m]. *)
Definition is_apply (c : Call) : bool :=
  match c with apply _ => true | _ => false end.

(** A transfer between host and OpenCL device. *)
Definition is_sync (c : Call) : bool :=
  match c with mesh1_syncCLMem _ | wkm_syncCLMem _ => true | _ => false end.

(** A call of the periodic output block: moments for the status line,
    snapshots, plots and the status line itself. *)
Definition is_output (c : Call) : bool :=
  match c with
  | mesh1_variance _ | mesh1_updateYProjection
  | mesh1_syncCLMem _ | wkm_syncCLMem _
  | hdf_file_appendTime _ | hdf_file_append_mesh1 _ | field_updateCSR
  | hdf_file_append_field | hdf_file_append_wkm | hdf_file_append_trackme
  | psv_createTexture | psv_delTexture | bpv_updateLine | wpv_updateLine
  | history_updateLine _ | display_draw | printText_fmt _ => true
  | _ => false
  end.

(** The map applications of one turn of the loop, in program order. *)
Definition turn_applies (o : Objects) : list Call :=
  [apply (wm o); apply (rm1 o)]
  ++ match rm2 o with Some m => [apply m] | None => [] end
  ++ [apply (fpm o)].

(** [m] does not leave [main] with a status other than [EXIT_SUCCESS]. *)
Definition exits_with_success {A} (m : M A) : Prop :=
  forall t code t', m t = Halt (Returned code t') -> code = EXIT_SUCCESS.

(** [m] always continues, having issued calls that satisfy [P]. *)
Definition emits (P : Call -> Prop) {A} (m : M A) : Prop :=
  forall t, exists a cs, m t = Go a (t ++ cs) /\ Forall P cs.

(** The value of [outstepnr] after [k] turns of the loop that start in the
    state [(i, outstepnr)]. *)
Fixpoint outstepnr_after (opts : ProgramOptions) (env : Environment)
         (o : Objects) (k : nat) (i outstepnr : Z) : Z :=
  match k with
  | O => outstepnr
  | S k' =>
      outstepnr_after opts env o k' (u32 (i + 1))
                      (loop_body opts env o i outstepnr).2
  end.

(** The status line printed at the end of an output block. *)
Definition is_status (c : Call) : bool :=
  match c with printText_fmt _ => true | _ => false end.

(** The stages of one turn of the loop, in program order. *)
Definition turn_stages (o : Objects) : list Call :=
  match wkm o with Some _ => [wkm_update] | None => [] end
  ++ turn_applies o ++ [mesh1_updateXProjection].

Definition Mesh_eqb (a b : Mesh) : bool :=
  match a, b with
  | mesh1, mesh1 | mesh2, mesh2 | mesh3, mesh3 => true
  | _, _ => false
  end.

(** The maps applied in one turn of the loop, in program order. *)
Definition turn_maps (o : Objects) : list SourceMap :=
  [wm o; rm1 o]
  ++ match rm2 o with Some m => [m] | None => [] end
  ++ [fpm o].

(** The maps [ms] taken as a pipeline on the data in mesh [cur]: the mesh
    that holds the result, or [None] when one of the maps does not read the
    mesh written by the map before it. *)
Fixpoint chain (cur : Mesh) (ms : list SourceMap) : option Mesh :=
  match ms with
  | [] => Some cur
  | m :: ms' =>
      if Mesh_eqb (map_in m) cur then chain (map_out m) ms' else None
  end.

(** [ceil(x/s)] for [s > 0]. *)
Definition cdiv (x s : Z) : Z := (x + s - 1) / s.

End Observe.

(* ===================================================================== *)
(** ** Further concrete configurations *)
(* ===================================================================== *)

Module MoreExamples.
Import Main Examples.
Local Open Scope string_scope.

(** [o] with another OpenCL device number. *)
Definition with_CLDevice (v : Z) (o : ProgramOptions) : ProgramOptions :=
  {| getCLDevice := v;
     getOutFile := getOutFile o;
     getVerbosity := getVerbosity o;
     getRenormalizeCharge := getRenormalizeCharge o;
     getGridSize := getGridSize o;
     getBeamEnergy := getBeamEnergy o;
     getRevolutionFrequency := getRevolutionFrequency o;
     getBendingRadius := getBendingRadius o;
     getHarmonicNumber := getHarmonicNumber o;
     getVacuumChamberGap := getVacuumChamberGap o;
     getRFVoltage := getRFVoltage o;
     getSyncFreq := getSyncFreq o;
     getAlpha0 := getAlpha0 o;
     getHaissinskiIterations := getHaissinskiIterations o;
     getSteps := getSteps o;
     getOutSteps := getOutSteps o;
     getNRotations := getNRotations o;
     getDampingTime := getDampingTime o;
     getStartDistFile := getStartDistFile o;
     getImpedanceFile := getImpedanceFile o;
     getWallConductivity := getWallConductivity o;
     getWallSusceptibility := getWallSusceptibility o;
     getCollimatorRadius := getCollimatorRadius o;
     getRotationType := getRotationType o;
     getWakeFile := getWakeFile o;
     getParticleTracking := getParticleTracking o;
     getSavePhaseSpace := getSavePhaseSpace o |}.

(** [o] with another start distribution file. *)
Definition with_StartDistFile (v : string) (o : ProgramOptions) : ProgramOptions :=
  {| getCLDevice := getCLDevice o;
     getOutFile := getOutFile o;
     getVerbosity := getVerbosity o;
     getRenormalizeCharge := getRenormalizeCharge o;
     getGridSize := getGridSize o;
     getBeamEnergy := getBeamEnergy o;
     getRevolutionFrequency := getRevolutionFrequency o;
     getBendingRadius := getBendingRadius o;
     getHarmonicNumber := getHarmonicNumber o;
     getVacuumChamberGap := getVacuumChamberGap o;
     getRFVoltage := getRFVoltage o;
     getSyncFreq := getSyncFreq o;
     getAlpha0 := getAlpha0 o;
     getHaissinskiIterations := getHaissinskiIterations o;
     getSteps := getSteps o;
     getOutSteps := getOutSteps o;
     getNRotations := getNRotations o;
     getDampingTime := getDampingTime o;
     getStartDistFile := v;
     getImpedanceFile := getImpedanceFile o;
     getWallConductivity := getWallConductivity o;
     getWallSusceptibility := getWallSusceptibility o;
     getCollimatorRadius := getCollimatorRadius o;
     getRotationType := getRotationType o;
     getWakeFile := getWakeFile o;
     getParticleTracking := getParticleTracking o;
     getSavePhaseSpace := getSavePhaseSpace o |}.

(** [o] with another number of Haissinski iterations. *)
Definition with_HaissinskiIterations (v : Z) (o : ProgramOptions) : ProgramOptions :=
  {| getCLDevice := getCLDevice o;
     getOutFile := getOutFile o;
     getVerbosity := getVerbosity o;
     getRenormalizeCharge := getRenormalizeCharge o;
     getGridSize := getGridSize o;
     getBeamEnergy := getBeamEnergy o;
     getRevolutionFrequency := getRevolutionFrequency o;
     getBendingRadius := getBendingRadius o;
     getHarmonicNumber := getHarmonicNumber o;
     getVacuumChamberGap := getVacuumChamberGap o;
     getRFVoltage := getRFVoltage o;
     getSyncFreq := getSyncFreq o;
     getAlpha0 := getAlpha0 o;
     getHaissinskiIterations := v;
     getSteps := getSteps o;
     getOutSteps := getOutSteps o;
     getNRotations := getNRotations o;
     getDampingTime := getDampingTime o;
     getStartDistFile := getStartDistFile o;
     getImpedanceFile := getImpedanceFile o;
     getWallConductivity := getWallConductivity o;
     getWallSusceptibility := getWallSusceptibility o;
     getCollimatorRadius := getCollimatorRadius o;
     getRotationType := getRotationType o;
     getWakeFile := getWakeFile o;
     getParticleTracking := getParticleTracking o;
     getSavePhaseSpace := getSavePhaseSpace o |}.

(** [o] with another output stride. *)
Definition with_OutSteps (v : Z) (o : ProgramOptions) : ProgramOptions :=
  {| getCLDevice := getCLDevice o;
     getOutFile := getOutFile o;
     getVerbosity := getVerbosity o;
     getRenormalizeCharge := getRenormalizeCharge o;
     getGridSize := getGridSize o;
     getBeamEnergy := getBeamEnergy o;
     getRevolutionFrequency := getRevolutionFrequency o;
     getBendingRadius := getBendingRadius o;
     getHarmonicNumber := getHarmonicNumber o;
     getVacuumChamberGap := getVacuumChamberGap o;
     getRFVoltage := getRFVoltage o;
     getSyncFreq := getSyncFreq o;
     getAlpha0 := getAlpha0 o;
     getHaissinskiIterations := getHaissinskiIterations o;
     getSteps := getSteps o;
     getOutSteps := v;
     getNRotations := getNRotations o;
     getDampingTime := getDampingTime o;
     getStartDistFile := getStartDistFile o;
     getImpedanceFile := getImpedanceFile o;
     getWallConductivity := getWallConductivity o;
     getWallSusceptibility := getWallSusceptibility o;
     getCollimatorRadius := getCollimatorRadius o;
     getRotationType := getRotationType o;
     getWakeFile := getWakeFile o;
     getParticleTracking := getParticleTracking o;
     getSavePhaseSpace := getSavePhaseSpace o |}.

(** [o] with another rotation type. *)
Definition with_RotationType (v : Z) (o : ProgramOptions) : ProgramOptions :=
  {| getCLDevice := getCLDevice o;
     getOutFile := getOutFile o;
     getVerbosity := getVerbosity o;
     getRenormalizeCharge := getRenormalizeCharge o;
     getGridSize := getGridSize o;
     getBeamEnergy := getBeamEnergy o;
     getRevolutionFrequency := getRevolutionFrequency o;
     getBendingRadius := getBendingRadius o;
     getHarmonicNumber := getHarmonicNumber o;
     getVacuumChamberGap := getVacuumChamberGap o;
     getRFVoltage := getRFVoltage o;
     getSyncFreq := getSyncFreq o;
     getAlpha0 := getAlpha0 o;
     getHaissinskiIterations := getHaissinskiIterations o;
     getSteps := getSteps o;
     getOutSteps := getOutSteps o;
     getNRotations := getNRotations o;
     getDampingTime := getDampingTime o;
     getStartDistFile := getStartDistFile o;
     getImpedanceFile := getImpedanceFile o;
     getWallConductivity := getWallConductivity o;
     getWallSusceptibility := getWallSusceptibility o;
     getCollimatorRadius := getCollimatorRadius o;
     getRotationType := v;
     getWakeFile := getWakeFile o;
     getParticleTracking := getParticleTracking o;
     getSavePhaseSpace := getSavePhaseSpace o |}.

(** [o] with another damping time. *)
Definition with_DampingTime (v : Qc) (o : ProgramOptions) : ProgramOptions :=
  {| getCLDevice := getCLDevice o;
     getOutFile := getOutFile o;
     getVerbosity := getVerbosity o;
     getRenormalizeCharge := getRenormalizeCharge o;
     getGridSize := getGridSize o;
     getBeamEnergy := getBeamEnergy o;
     getRevolutionFrequency := getRevolutionFrequency o;
     getBendingRadius := getBendingRadius o;
     getHarmonicNumber := getHarmonicNumber o;
     getVacuumChamberGap := getVacuumChamberGap o;
     getRFVoltage := getRFVoltage o;
     getSyncFreq := getSyncFreq o;
     getAlpha0 := getAlpha0 o;
     getHaissinskiIterations := getHaissinskiIterations o;
     getSteps := getSteps o;
     getOutSteps := getOutSteps o;
     getNRotations := getNRotations o;
     getDampingTime := v;
     getStartDistFile := getStartDistFile o;
     getImpedanceFile := getImpedanceFile o;
     getWallConductivity := getWallConductivity o;
     getWallSusceptibility := getWallSusceptibility o;
     getCollimatorRadius := getCollimatorRadius o;
     getRotationType := getRotationType o;
     getWakeFile := getWakeFile o;
     getParticleTracking := getParticleTracking o;
     getSavePhaseSpace := getSavePhaseSpace o |}.

(** [o] with another grid size. *)
Definition with_GridSize (v : Z) (o : ProgramOptions) : ProgramOptions :=
  {| getCLDevice := getCLDevice o;
     getOutFile := getOutFile o;
     getVerbosity := getVerbosity o;
     getRenormalizeCharge := getRenormalizeCharge o;
     getGridSize := v;
     getBeamEnergy := getBeamEnergy o;
     getRevolutionFrequency := getRevolutionFrequency o;
     getBendingRadius := getBendingRadius o;
     getHarmonicNumber := getHarmonicNumber o;
     getVacuumChamberGap := getVacuumChamberGap o;
     getRFVoltage := getRFVoltage o;
     getSyncFreq := getSyncFreq o;
     getAlpha0 := getAlpha0 o;
     getHaissinskiIterations := getHaissinskiIterations o;
     getSteps := getSteps o;
     getOutSteps := getOutSteps o;
     getNRotations := getNRotations o;
     getDampingTime := getDampingTime o;
     getStartDistFile := getStartDistFile o;
     getImpedanceFile := getImpedanceFile o;
     getWallConductivity := getWallConductivity o;
     getWallSusceptibility := getWallSusceptibility o;
     getCollimatorRadius := getCollimatorRadius o;
     getRotationType := getRotationType o;
     getWakeFile := getWakeFile o;
     getParticleTracking := getParticleTracking o;
     getSavePhaseSpace := getSavePhaseSpace o |}.

(** A build with OpenCL only; [throws] says whether preparing the OpenCL
    environment fails. *)
Definition environment_cl (throws : bool) : Environment :=
  {| INOVESA_USE_CL := true;
     INOVESA_USE_GUI := false;
     INOVESA_USE_HDF5 := false;
     INOVESA_USE_PNG := false;
     parse := parse_ok;
     prepareCLEnvironment_throws := throws;
     startdist_nMeshCells := 256;
     impedance_nFreqs := 0;
     trackingfile_throws := false;
     display_made := false;
     psv_made := false;
     bpv_made := false;
     wpv_made := false;
     history_made := false |}.

(** A build with the GUI only, in which every plot element is created. *)
Definition environment_gui : Environment :=
  {| INOVESA_USE_CL := false;
     INOVESA_USE_GUI := true;
     INOVESA_USE_HDF5 := false;
     INOVESA_USE_PNG := false;
     parse := parse_ok;
     prepareCLEnvironment_throws := false;
     startdist_nMeshCells := 256;
     impedance_nFreqs := 0;
     trackingfile_throws := false;
     display_made := true;
     psv_made := true;
     bpv_made := true;
     wpv_made := true;
     history_made := true |}.

(** A build with HDF5 only; a start distribution read from an HDF5 file
    has [cells] mesh cells per axis. *)
Definition environment_hdf5 (cells : Z) : Environment :=
  {| INOVESA_USE_CL := false;
     INOVESA_USE_GUI := false;
     INOVESA_USE_HDF5 := true;
     INOVESA_USE_PNG := false;
     parse := parse_ok;
     prepareCLEnvironment_throws := false;
     startdist_nMeshCells := cells;
     impedance_nFreqs := 0;
     trackingfile_throws := false;
     display_made := false;
     psv_made := false;
     bpv_made := false;
     wpv_made := false;
     history_made := false |}.

(** The objects set-up builds for [opts_gap]. *)
Definition objects_gap : Objects :=
  {| rm1 := new_SourceMap class_RFKickMap mesh2 mesh1;
     rm2 := Some (new_SourceMap class_DriftMap mesh1 mesh3);
     fpm := new_SourceMap class_FokkerPlanckMap mesh3 mesh1;
     wm := new_SourceMap class_WakePotentialMap mesh1 mesh2;
     wkm := Some (new_SourceMap class_WakePotentialMap mesh1 mesh2);
     OCLH_active := false;
     bpv := false;
     wpv := false;
     history := false |}.

(** [2^31] steps per period and 4 periods: a product of [2^33]. *)
Definition opts_long : ProgramOptions :=
  options 2147483648 (Qc_of_Z 4) 0 0%Qc (Qc_of_Z 8000)
          EmptyString EmptyString.

End MoreExamples.

(* ===================================================================== *)
(** * Properties *)
(* ===================================================================== *)

(** ** Machine integers and rationals *)

Lemma u32_small z : 0 <= z < 4294967296 -> u32 z = z.
Proof. intros H. unfold u32. apply Z.mod_small; lia. Qed.

Lemma u16_range z : 0 <= u16 z < 65536.
Proof. unfold u16. apply Z.mod_pos_bound; lia. Qed.

Lemma Qc_this_inj (a b : Qc) : this a = this b -> a = b.
Proof. intros H. apply Qc_is_canon. rewrite H. apply Qeq_refl. Qed.

(** ** Sequences of writes *)

Section Writes.
Import HeritageMap FokkerPlanckMap.

Lemma exec_app ws1 ws2 m : exec (ws1 ++ ws2) m = exec ws2 (exec ws1 m).
Proof. unfold exec. apply foldl_app. Qed.

Lemma exec_length ws m : length (exec ws m) = length m.
Proof.
  revert m. induction ws as [|w ws IH]; intros m; [reflexivity|].
  cbn. change (length (exec ws (<[w.1:=w.2]> m)) = length m).
  rewrite IH. apply length_insert.
Qed.

(** A position no write addresses keeps its content. *)
Lemma exec_lookup_untouched ws m p :
  (forall w, In w ws -> w.1 <> p) -> exec ws m !! p = m !! p.
Proof.
  revert m. induction ws as [|w ws IH]; intros m Hw; [reflexivity|].
  change (exec ws (<[w.1:=w.2]> m) !! p = m !! p).
  rewrite IH by (intros w' Hin; apply Hw; now right).
  apply list_lookup_insert_ne. apply Hw. now left.
Qed.

(** A position inside the array that is written, and only ever with [v],
    holds [v] at the end. *)
Lemma exec_lookup_written ws m p v :
  (exists w, In w ws /\ w.1 = p) ->
  (forall w, In w ws -> w.1 = p -> w.2 = v) ->
  (p < length m)%nat ->
  exec ws m !! p = Some v.
Proof.
  induction ws as [|w ws IH] using rev_ind; intros [w0 [Hin Hp]] Hv Hlen.
  - destruct Hin.
  - rewrite exec_app. cbn.
    destruct (decide (w.1 = p)) as [Heq|Hne].
    + rewrite Heq. rewrite list_lookup_insert_eq by (now rewrite exec_length).
      f_equal. apply Hv; [apply in_app_iff; right; now left | exact Heq].
    + rewrite list_lookup_insert_ne by exact Hne.
      apply IH; [| |exact Hlen].
      * apply in_app_iff in Hin. destruct Hin as [Hin|[Hin|[]]].
        -- exists w0. now split.
        -- subst w0. contradiction.
      * intros w' Hin'. apply Hv. apply in_app_iff. now left.
Qed.

(** A loop whose body is a sequence of writes is the sequence of all of
    them. *)
Lemma foldl_exec {A} (f : list hi -> A -> list hi) (g : A -> list (nat * hi))
      (l : list A) (m : list hi) :
  (forall m x, f m x = exec (g x) m) ->
  foldl f m l = exec (flat_map g l) m.
Proof.
  intros Hf. revert m. induction l as [|x l IH]; intros m; [reflexivity|].
  change (foldl f (f m x) l = exec (g x ++ flat_map g l) m).
  rewrite exec_app, <- Hf. apply IH.
Qed.

End Writes.

(** ** The stencil built by the FokkerPlanckMap constructor *)

Section Stencil.
Import HeritageMap FokkerPlanckMap.

Variable dp : Qc.
Variable x1 : nat -> Qc.
Variables xsize ysize : Z.
Variable fpt : FPType.
Variable e0 : Qc.
Variable hinfo0 : list hi.

Local Abbreviation Nx := (_xsize xsize).
Local Abbreviation Ny := (_ysize ysize).
Local Abbreviation stencil := (construct dp x1 xsize ysize fpt e0 hinfo0).
Local Abbreviation writes := (all_writes dp x1 xsize ysize fpt e0).
Local Abbreviation entry_ := (entry dp x1 ysize fpt e0).

Lemma sizes_u16 : Z.of_nat Nx < 65536 /\ Z.of_nat Ny < 65536.
Proof.
  unfold _xsize, _ysize.
  pose proof (u16_range xsize). pose proof (u16_range ysize). lia.
Qed.

Lemma store3_exec m i j a b c :
  store3 ysize m i j a b c = exec (writes3 ysize i j (a, b, c)) m.
Proof. reflexivity. Qed.

Lemma switch_fpt_exec i m :
  switch_fpt dp x1 ysize fpt e0 i m
  = exec (flat_map (fun j => writes3 ysize i j (interior dp x1 ysize fpt e0 i j))
                   (seq 1 (Ny - 2))) m.
Proof.
  unfold switch_fpt, for_j, interior.
  destruct fpt; apply foldl_exec; intros m' j; reflexivity.
Qed.

Lemma construct_exec : stencil = exec writes hinfo0.
Proof.
  unfold construct, all_writes. apply foldl_exec. intros m i.
  unfold outer_body, row_writes.
  rewrite !exec_app, !store3_exec, switch_fpt_exec. reflexivity.
Qed.

Lemma construct_length : length stencil = length hinfo0.
Proof. rewrite construct_exec. apply exec_length. Qed.

Lemma offset_inj i j k i' j' k' :
  (j < Ny)%nat -> (j' < Ny)%nat -> (k < 3)%nat -> (k' < 3)%nat ->
  offset 3 Ny i j k = offset 3 Ny i' j' k' ->
  i = i' /\ j = j' /\ k = k'.
Proof.
  unfold offset. intros Hj Hj' Hk Hk' H.
  assert (i * Ny + j = i' * Ny + j')%nat as Hc by lia.
  assert (i = i') as -> by nia.
  lia.
Qed.

Lemma boundary_first : 0 < Z.of_nat Ny -> boundary ysize 0 = true.
Proof. intros _. apply bool_decide_eq_true_2. now left. Qed.

Lemma boundary_last : boundary ysize (Ny - 1) = true.
Proof. apply bool_decide_eq_true_2. now right. Qed.

Lemma boundary_interior j :
  (0 < j < Ny - 1)%nat -> boundary ysize j = false.
Proof. intros H. apply bool_decide_eq_false_2. lia. Qed.

(** Every write of the constructor stores the pair [entry] describes. *)
Lemma writes_sound w :
  (0 < Ny)%nat -> In w writes ->
  exists i j k, (i < Nx)%nat /\ (j < Ny)%nat /\ (k < 3)%nat
                /\ w = (offset 3 Ny i j k, entry_ i j k).
Proof.
  intros Hy Hin. unfold all_writes in Hin.
  apply in_flat_map in Hin as [i [Hi Hin]]. apply in_seq in Hi.
  unfold row_writes in Hin.
  apply in_app_iff in Hin as [Hin|Hin]; [|apply in_app_iff in Hin as [Hin|Hin]].
  - exists i, 0%nat. unfold writes3 in Hin. cbn in Hin.
    unfold entry. rewrite boundary_first by lia.
    destruct Hin as [<-|[<-|[<-|[]]]];
      [exists 0%nat|exists 1%nat|exists 2%nat]; repeat split; lia.
  - apply in_flat_map in Hin as [j [Hj Hin]]. apply in_seq in Hj.
    exists i, j. unfold writes3 in Hin. cbn [In] in Hin.
    unfold entry. rewrite boundary_interior by lia.
    destruct Hin as [<-|[<-|[<-|[]]]];
      [exists 0%nat|exists 1%nat|exists 2%nat]; repeat split; lia.
  - exists i, (Ny - 1)%nat. unfold writes3 in Hin. cbn in Hin.
    unfold entry. rewrite boundary_last.
    destruct Hin as [<-|[<-|[<-|[]]]];
      [exists 0%nat|exists 1%nat|exists 2%nat]; repeat split; lia.
Qed.

(** Every pair of the stencil is written by the constructor. *)
Lemma writes_complete i j k :
  (i < Nx)%nat -> (j < Ny)%nat -> (k < 3)%nat ->
  In (offset 3 Ny i j k, entry_ i j k) writes.
Proof.
  intros Hi Hj Hk. unfold all_writes. apply in_flat_map.
  exists i. split; [apply in_seq; lia|]. unfold row_writes.
  assert (k = 0 \/ k = 1 \/ k = 2)%nat as Hk3 by lia.
  destruct (decide (j = 0%nat)) as [->|Hj0].
  - apply in_app_iff. left. unfold entry. rewrite boundary_first by lia.
    unfold writes3. cbn.
    destruct Hk3 as [->|[->| ->]]; auto.
  - destruct (decide (j = (Ny - 1)%nat)) as [->|Hj1].
    + apply in_app_iff. right. apply in_app_iff. right.
      unfold entry. rewrite boundary_last. unfold writes3. cbn.
      destruct Hk3 as [->|[->| ->]]; auto.
    + apply in_app_iff. right. apply in_app_iff. left.
      apply in_flat_map. exists j. split; [apply in_seq; lia|].
      unfold entry. rewrite boundary_interior by lia.
      unfold writes3. cbn [In].
      destruct Hk3 as [->|[->| ->]]; auto.
Qed.

(** The content of the stencil after the constructor. *)
Lemma construct_lookup i j k :
  length hinfo0 = (3 * _size xsize ysize)%nat ->
  (i < Nx)%nat -> (j < Ny)%nat -> (k < 3)%nat ->
  stencil !! offset 3 Ny i j k = Some (entry_ i j k).
Proof.
  intros Hlen Hi Hj Hk. rewrite construct_exec.
  apply exec_lookup_written.
  - exists (offset 3 Ny i j k, entry_ i j k). split; [|reflexivity].
    now apply writes_complete.
  - intros w Hin Hp.
    apply writes_sound in Hin as (i' & j' & k' & Hi' & Hj' & Hk' & ->);
      [|lia].
    cbn in Hp. apply offset_inj in Hp as (-> & -> & ->); auto.
  - rewrite Hlen. unfold _size, offset. nia.
Qed.

(** [i*_ysize+j+d] does not wrap around. *)
Lemma src0_small i j :
  (i < Nx)%nat -> (j < Ny)%nat ->
  src0 ysize i j = Z.of_nat (i * Ny + j).
Proof.
  intros Hi Hj. destruct sizes_u16 as [Hx Hy]. unfold src0.
  rewrite (u32_small (Z.of_nat i * Z.of_nat Ny)) by nia.
  rewrite u32_small by nia. lia.
Qed.

Lemma src_small i j d :
  (i < Nx)%nat -> (0 < j < Ny - 1)%nat -> -1 <= d <= 1 ->
  src ysize i j d = Z.of_nat (i * Ny + j) + d.
Proof.
  intros Hi Hj Hd. destruct sizes_u16 as [Hx Hy]. unfold src.
  rewrite (u32_small (Z.of_nat i * Z.of_nat Ny)) by nia.
  rewrite (u32_small (Z.of_nat i * Z.of_nat Ny + Z.of_nat j)) by nia.
  rewrite u32_small by nia. lia.
Qed.

(** Every pair of the stencil names a cell of the input mesh. *)
Lemma entry_index_in_range i j k :
  (i < Nx)%nat -> (j < Ny)%nat -> (k < 3)%nat ->
  0 <= index (entry_ i j k) < Z.of_nat (_size xsize ysize).
Proof.
  intros Hi Hj Hk. unfold entry, _size.
  destruct (boundary ysize j) eqn:Hb; [cbn; nia|].
  apply bool_decide_eq_false in Hb.
  assert (0 < j < Ny - 1)%nat as Hint by lia.
  assert (k = 0 \/ k = 1 \/ k = 2)%nat as Hk3 by lia.
  destruct Hk3 as [->|[->| ->]]; destruct fpt; cbn [interior pick fst snd index];
    rewrite ?src_small, ?src0_small by (auto; lia); nia.
Qed.

End Stencil.

(** ** Applying the stencil *)

Section ApplyStencil.
Import HeritageMap FokkerPlanckMap.

Lemma apply_lookup ip size hinfo data_in q :
  (q < size)%nat ->
  apply ip size hinfo data_in !! q = Some (apply_cell ip hinfo data_in q).
Proof.
  intros Hq. unfold apply. rewrite list_lookup_fmap.
  rewrite lookup_seq_lt by exact Hq. reflexivity.
Qed.

Variable dp : Qc.
Variable x1 : nat -> Qc.
Variables xsize ysize : Z.
Variable fpt : FPType.
Variable e0 : Qc.
Variable hinfo0 : list hi.
Hypothesis hinfo0_length : length hinfo0 = (3 * _size xsize ysize)%nat.

Local Abbreviation Nx := (_xsize xsize).
Local Abbreviation Ny := (_ysize ysize).
Local Abbreviation stencil := (construct dp x1 xsize ysize fpt e0 hinfo0).
Local Abbreviation entry_ := (entry dp x1 ysize fpt e0).

Lemma cell_in_range i j :
  (i < Nx)%nat -> (j < Ny)%nat -> (i * Ny + j < _size xsize ysize)%nat.
Proof. unfold _size. nia. Qed.

(** An output cell of [apply] is the weighted sum over its three pairs. *)
Lemma apply_stencil data_in i j :
  (i < Nx)%nat -> (j < Ny)%nat ->
  apply 3 (_size xsize ysize) stencil data_in !! (i * Ny + j)%nat
  = Some (0 + term data_in (entry_ i j 0) + term data_in (entry_ i j 1)
          + term data_in (entry_ i j 2))%Qc.
Proof.
  intros Hi Hj. rewrite apply_lookup by now apply cell_in_range.
  unfold apply_cell. cbn [seq foldl].
  change ((i * Ny + j) * 3 + 0)%nat with (offset 3 Ny i j 0).
  change ((i * Ny + j) * 3 + 1)%nat with (offset 3 Ny i j 1).
  change ((i * Ny + j) * 3 + 2)%nat with (offset 3 Ny i j 2).
  rewrite !construct_lookup by (auto; lia). reflexivity.
Qed.

(** The sum of the three weights of an output cell. *)
Lemma weight_sum_stencil i j :
  (i < Nx)%nat -> (j < Ny)%nat ->
  weight_sum 3 stencil (i * Ny + j)
  = (0 + weight (entry_ i j 0) + weight (entry_ i j 1)
     + weight (entry_ i j 2))%Qc.
Proof.
  intros Hi Hj. unfold weight_sum. cbn [seq foldl].
  change ((i * Ny + j) * 3 + 0)%nat with (offset 3 Ny i j 0).
  change ((i * Ny + j) * 3 + 1)%nat with (offset 3 Ny i j 1).
  change ((i * Ny + j) * 3 + 2)%nat with (offset 3 Ny i j 2).
  rewrite !construct_lookup by (auto; lia). reflexivity.
Qed.

Lemma term_sentinel data_in : term data_in sentinel = 0%Qc.
Proof. unfold term. cbn. ring. Qed.

End ApplyStencil.

(** ** The Fokker-Planck stencil: weights, sums, boundary rows *)

Section FokkerPlanckClaims.
Import HeritageMap FokkerPlanckMap.

(** C1 (amended).  For the map built with [FPType::full] and coefficient
    [e0], every interior row [j] ([0 < j < _ysize-1]) of every column [i]
    holds the three pairs
    - cell [j-1] with weight [e0/dp² + e0/(2·dp)·p_j],
    - cell [j] with weight [1 + e0 - 2·e0/dp²],
    - cell [j+1] with weight [e0/dp² - e0/(2·dp)·p_j],
    where [dp] is the grid spacing in p and [p_j = x1 j] the coordinate of
    row [j]. *)
Theorem full_interior_weights
        (dp : Qc) (x1 : nat -> Qc) (xsize ysize : Z) (e0 : Qc)
        (hinfo0 : list hi) (i j : nat) :
  length hinfo0 = (3 * _size xsize ysize)%nat ->
  (i < _xsize xsize)%nat ->
  (0 < j < _ysize ysize - 1)%nat ->
  let m := construct dp x1 xsize ysize full e0 hinfo0 in
  let q := (i * _ysize ysize + j)%nat in
  m !! offset 3 (_ysize ysize) i j 0
    = Some (mk_hi (Z.of_nat q - 1)
                  (e0 / (dp * dp) + e0 / (2 * dp) * x1 j)%Qc)
  /\ m !! offset 3 (_ysize ysize) i j 1
    = Some (mk_hi (Z.of_nat q) (1 + e0 - 2 * (e0 / (dp * dp)))%Qc)
  /\ m !! offset 3 (_ysize ysize) i j 2
    = Some (mk_hi (Z.of_nat q + 1)
                  (e0 / (dp * dp) - e0 / (2 * dp) * x1 j)%Qc).
Proof.
  intros Hlen Hi Hj m q. subst m q.
  rewrite !construct_lookup by (auto; lia).
  unfold entry. rewrite boundary_interior by exact Hj.
  cbn [interior pick fst snd].
  rewrite !(src_small xsize) by (auto; lia).
  rewrite (src0_small xsize) by (auto; lia).
  repeat split.
Qed.

(** C2 (amended).  In the Fokker-Planck stencil the three weights of an
    output cell sum to 0 in the boundary rows [j = 0] and [j = _ysize-1];
    in an interior row they sum to 1 for the variants none and
    diffusion-only and to [1 + e0] for damping-only and full. *)
Theorem stencil_weight_sums
        (dp : Qc) (x1 : nat -> Qc) (xsize ysize : Z) (fpt : FPType)
        (e0 : Qc) (hinfo0 : list hi) (i j : nat) :
  length hinfo0 = (3 * _size xsize ysize)%nat ->
  (i < _xsize xsize)%nat ->
  (j < _ysize ysize)%nat ->
  weight_sum 3 (construct dp x1 xsize ysize fpt e0 hinfo0)
             (i * _ysize ysize + j)
  = if boundary ysize j then 0%Qc
    else match fpt with
         | none | diffusion_only => 1%Qc
         | damping_only | full => (1 + e0)%Qc
         end.
Proof.
  intros Hlen Hi Hj. rewrite weight_sum_stencil by assumption.
  unfold entry. destruct (boundary ysize j).
  - cbn. ring.
  - destruct fpt; cbn [interior pick fst snd weight];
      unfold daome, diome, fptme; ring.
Qed.

(** C4 (amended).  Applying the map built with [FPType::none] copies every
    cell of an interior row from the input mesh and writes zero to every
    cell of the boundary rows [j = 0] and [j = _ysize-1]. *)
Theorem none_apply_cells
        (dp : Qc) (x1 : nat -> Qc) (xsize ysize : Z) (e0 : Qc)
        (hinfo0 : list hi) (data_in : list Qc) (i j : nat) (v : Qc) :
  length hinfo0 = (3 * _size xsize ysize)%nat ->
  (i < _xsize xsize)%nat ->
  (j < _ysize ysize)%nat ->
  data_in !! (i * _ysize ysize + j)%nat = Some v ->
  apply 3 (_size xsize ysize)
        (construct dp x1 xsize ysize none e0 hinfo0) data_in
    !! (i * _ysize ysize + j)%nat
  = Some (if boundary ysize j then 0%Qc else v).
Proof.
  intros Hlen Hi Hj Hv. rewrite apply_stencil by assumption.
  f_equal. unfold entry.
  destruct (boundary ysize j) eqn:Hb.
  - rewrite !term_sentinel. ring.
  - cbn [interior pick fst snd]. unfold term. cbn [index weight].
    rewrite (src0_small xsize) by assumption.
    rewrite Nat2Z.id, Hv. cbn [default]. unfold id. ring.
Qed.

(** C5.  For every variant, the pairs of the boundary rows [j = 0] and
    [j = _ysize-1] are all [{0,0}], and after [apply()] the cells of these
    rows are zero whatever the input mesh holds. *)
Theorem boundary_rows_zero
        (dp : Qc) (x1 : nat -> Qc) (xsize ysize : Z) (fpt : FPType)
        (e0 : Qc) (hinfo0 : list hi) (data_in : list Qc) (i j : nat) :
  length hinfo0 = (3 * _size xsize ysize)%nat ->
  (i < _xsize xsize)%nat ->
  (j < _ysize ysize)%nat ->
  j = 0%nat \/ j = (_ysize ysize - 1)%nat ->
  (forall k, (k < 3)%nat ->
     construct dp x1 xsize ysize fpt e0 hinfo0
       !! offset 3 (_ysize ysize) i j k = Some (mk_hi 0 0%Qc))
  /\ apply 3 (_size xsize ysize)
           (construct dp x1 xsize ysize fpt e0 hinfo0) data_in
       !! (i * _ysize ysize + j)%nat = Some 0%Qc.
Proof.
  intros Hlen Hi Hj Hb.
  assert (boundary ysize j = true) as Hbt
      by (apply bool_decide_eq_true_2; exact Hb).
  split.
  - intros k Hk. rewrite construct_lookup by assumption.
    unfold entry. rewrite Hbt. reflexivity.
  - rewrite apply_stencil by assumption. f_equal.
    unfold entry. rewrite Hbt, !term_sentinel. ring.
Qed.

End FokkerPlanckClaims.

(** ** The stencil on a 3 x 3 grid *)

Section FokkerPlanckExamples.
Import HeritageMap FokkerPlanckMap.

(** A 3 x 3 mesh with [dp = 1] and p-coordinates [-1, 0, 1]; the storage
    starts out zeroed. *)
Local Abbreviation p3 := (fun j : nat => (Qc_of_Z (Z.of_nat j) - 1)%Qc).
Local Abbreviation zeroed := (replicate 27 sentinel).

Example full_3x3 :
  map (fun h => (index h, weight h))
      (construct 1 p3 3 3 full 1 zeroed)
  = map (fun h => (index h, weight h))
        [ sentinel; sentinel; sentinel;
          mk_hi 0 1; mk_hi 1 0; mk_hi 2 1;
          sentinel; sentinel; sentinel;
          sentinel; sentinel; sentinel;
          mk_hi 3 1; mk_hi 4 0; mk_hi 5 1;
          sentinel; sentinel; sentinel;
          sentinel; sentinel; sentinel;
          mk_hi 6 1; mk_hi 7 0; mk_hi 8 1;
          sentinel; sentinel; sentinel ].
Proof. vm_compute. reflexivity. Qed.

(** C1, witness: column 0, row 1 of the 3 x 3 grid. *)
Lemma full_interior_weights_witness :
  let m := construct 1 p3 3 3 full 1 zeroed in
  m !! offset 3 (_ysize 3) 0 1 0
    = Some (mk_hi (Z.of_nat (0 * _ysize 3 + 1) - 1)
                  (1 / (1 * 1) + 1 / (2 * 1) * p3 1%nat)%Qc)
  /\ m !! offset 3 (_ysize 3) 0 1 1
    = Some (mk_hi (Z.of_nat (0 * _ysize 3 + 1)) (1 + 1 - 2 * (1 / (1 * 1)))%Qc)
  /\ m !! offset 3 (_ysize 3) 0 1 2
    = Some (mk_hi (Z.of_nat (0 * _ysize 3 + 1) + 1)
                  (1 / (1 * 1) - 1 / (2 * 1) * p3 1%nat)%Qc).
Proof.
  apply (full_interior_weights 1 p3 3 3 1 zeroed 0 1).
  - reflexivity.
  - vm_compute. lia.
  - vm_compute. lia.
Defined.

(** C1, counterexample: with [e0 = 1], [dp = 1] and [p_1 = 0] the weights
    [e/(2·dp²) + e/(2·dp)·p_j], [1 + e - e/dp²] and
    [e/(2·dp²) - e/(2·dp)·p_j] are 1/2, 1 and 1/2; the stencil holds 1, 0
    and 1. *)
Lemma full_interior_weights_counterexample :
  let m := construct 1 p3 3 3 full 1 zeroed in
  weight <$> m !! offset 3 3 0 1 0
    <> Some (1 / (2 * (1 * 1)) + 1 / (2 * 1) * p3 1%nat)%Qc
  /\ weight <$> m !! offset 3 3 0 1 1
    <> Some (1 + 1 - 1 / (1 * 1))%Qc
  /\ weight <$> m !! offset 3 3 0 1 2
    <> Some (1 / (2 * (1 * 1)) - 1 / (2 * 1) * p3 1%nat)%Qc.
Proof. vm_compute. repeat split; discriminate. Qed.

(** The tolerance [1e-6]. *)
Local Abbreviation tol := (Q2Qc (1 # 1000000)).

(** C2, witness: an interior cell of the full stencil sums to [1 + e0]. *)
Lemma stencil_weight_sums_witness :
  weight_sum 3 (construct 1 p3 3 3 full 1 zeroed) (0 * _ysize 3 + 1)
  = if boundary 3 1 then 0%Qc else (1 + 1)%Qc.
Proof.
  apply (stencil_weight_sums 1 p3 3 3 full 1 zeroed 0 1).
  - reflexivity.
  - vm_compute. lia.
  - vm_compute. lia.
Defined.

(** C2, counterexample: on the 3 x 3 grid the weights of the boundary cell
    (column 0, row 0) sum to 0 and those of the interior cell (column 0,
    row 1) of the full stencil with [e0 = 1] sum to 2; neither lies within
    [1e-6] of 1. *)
Lemma stencil_weight_sums_counterexample :
  let m := construct 1 p3 3 3 full 1 zeroed in
  ~ (1 - tol <= weight_sum 3 m 0 <= 1 + tol)%Qc
  /\ ~ (1 - tol <= weight_sum 3 m 1 <= 1 + tol)%Qc.
Proof.
  split; intros [Hlo Hhi].
  - vm_compute in Hlo. apply Hlo. reflexivity.
  - vm_compute in Hhi. apply Hhi. reflexivity.
Qed.

(** A 3 x 3 input mesh with the value 1 in every cell. *)
Local Abbreviation ones := (replicate 9 1%Qc).

(** C4, witness: an interior cell is copied. *)
Lemma none_apply_cells_witness :
  apply 3 (_size 3 3) (construct 1 p3 3 3 none 1 zeroed) ones
    !! (0 * _ysize 3 + 1)%nat
  = Some (if boundary 3 1 then 0%Qc else 1%Qc).
Proof.
  apply (none_apply_cells 1 p3 3 3 1 zeroed ones 0 1 1%Qc).
  - reflexivity.
  - vm_compute. lia.
  - vm_compute. lia.
  - reflexivity.
Defined.

(** C4, counterexample: applied to the mesh of ones, the map built with
    [FPType::none] does not return the input (as the identity map does):
    the cells of rows 0 and 2 are zero. *)
Lemma none_apply_counterexample :
  apply 3 9 (construct 1 p3 3 3 none 1 zeroed) ones <> Identity_apply ones
  /\ apply 3 9 (construct 1 p3 3 3 none 1 zeroed) ones !! 0%nat
     = Some 0%Qc
  /\ ones !! 0%nat = Some 1%Qc.
Proof.
  split; [|split].
  - vm_compute. discriminate.
  - vm_compute. reflexivity.
  - reflexivity.
Qed.

(** C5, witness: the last row of column 2, for the damping-only map. *)
Lemma boundary_rows_zero_witness :
  (forall k, (k < 3)%nat ->
     construct 1 p3 3 3 damping_only 1 zeroed
       !! offset 3 (_ysize 3) 2 2 k = Some (mk_hi 0 0%Qc))
  /\ apply 3 (_size 3 3) (construct 1 p3 3 3 damping_only 1 zeroed) ones
       !! (2 * _ysize 3 + 2)%nat = Some 0%Qc.
Proof.
  apply (boundary_rows_zero 1 p3 3 3 damping_only 1 zeroed ones 2 2).
  - reflexivity.
  - vm_compute. lia.
  - vm_compute. lia.
  - right. reflexivity.
Defined.

End FokkerPlanckExamples.

(* ===================================================================== *)
(** ** main(): numbers *)
(* ===================================================================== *)

Section Numbers.
Import Main.

Lemma Qc_of_Z_this z : this (Qc_of_Z z) = inject_Z z.
Proof. reflexivity. Qed.

Lemma Qc_of_Z_nonzero z : z <> 0 -> Qc_of_Z z <> 0%Qc.
Proof.
  intros Hz H. apply (f_equal this) in H. rewrite Qc_of_Z_this in H.
  cbn in H. unfold inject_Z in H. injection H as H. contradiction.
Qed.

Lemma ltb_spec (a b : Qc) : ltb a b = true <-> (a < b)%Qc.
Proof.
  unfold ltb. rewrite negb_true_iff, <- not_true_iff_false, Qle_bool_iff.
  unfold Qclt. split; [apply Qnot_le_lt | apply Qlt_not_le].
Qed.

Lemma ltb_false (a b : Qc) : ltb a b = false <-> (b <= a)%Qc.
Proof.
  unfold ltb. rewrite negb_false_iff, Qle_bool_iff. reflexivity.
Qed.

Lemma Qc_of_Z_lt (a b : Z) : a < b -> (Qc_of_Z a < Qc_of_Z b)%Qc.
Proof.
  intros H. unfold Qclt. rewrite !Qc_of_Z_this. now rewrite <- Zlt_Qlt.
Qed.

Lemma steps_positive opts : 1 <= steps opts.
Proof. unfold steps. lia. Qed.

End Numbers.

Section StepsClamp.
Import Main.

(** C9 (amended).  The number of steps per synchrotron period used by
    [main] is [max(configured, 1)], hence at least 1; the divisor [steps]
    of the rotation angle [2π/steps] is never zero, and the divisor
    [fs·steps] of the time increment [1/(fs·steps)] is zero exactly when
    the synchrotron frequency [fs] is zero. *)
Theorem steps_clamped
        (to_float std_sqrt : Qc -> Qc) (physcons_c : Qc)
        (opts : ProgramOptions) :
  steps opts = Z.max (getSteps opts) 1
  /\ 1 <= steps opts
  /\ angle_divisor opts <> 0%Qc
  /\ (dt_divisor to_float std_sqrt physcons_c opts = 0%Qc
      <-> fs to_float std_sqrt physcons_c opts = 0%Qc).
Proof.
  pose proof (steps_positive opts) as Hs.
  assert (Qc_of_Z (steps opts) <> 0%Qc) as Hq
      by (apply Qc_of_Z_nonzero; lia).
  repeat split; auto.
  - unfold dt_divisor. intros H.
    apply Qcmult_integral in H as [H|H]; [exact H | contradiction].
  - unfold dt_divisor. intros ->. ring.
Qed.

End StepsClamp.

(* ===================================================================== *)
(** ** main(): one turn of the simulation loop *)
(* ===================================================================== *)

Section LoopBody.
Import Main.

Lemma Forall_maybe {A} (P : A -> Prop) (b : bool) (l : list A) :
  Forall P l -> Forall P (maybe b l).
Proof. intros H. destruct b; [exact H | constructor]. Qed.

Lemma filter_none {A} (f : A -> bool) (l : list A) :
  Forall (fun x => f x = false) l -> List.filter f l = [].
Proof.
  induction 1 as [|x l Hx _ IH]; [reflexivity|]. cbn. now rewrite Hx.
Qed.

Variable opts : ProgramOptions.
Variable env : Environment.

(** The output block issues none of the calls selected by [f], for each of
    the selections used below. *)
Lemma output_block_none (f : Call -> bool) o i n :
  f = is_stage \/ f = is_normalize \/ f = is_integral \/ f = is_wkm_update ->
  List.filter f (output_block opts env o i n) = [].
Proof.
  intros Hf. apply filter_none. unfold output_block.
  repeat first [ apply Forall_app; split
               | apply Forall_maybe
               | apply List.Forall_cons
               | apply List.Forall_nil ];
    destruct Hf as [->|[->|[->| ->]]]; reflexivity.
Qed.

Lemma filter_maybe {A} (f : A -> bool) (b : bool) (l : list A) :
  List.filter f (maybe b l) = maybe b (List.filter f l).
Proof. now destruct b. Qed.

(** The stages of one turn, in program order. *)
Lemma loop_body_stages o i n :
  List.filter is_stage (loop_body opts env o i n).1
  = maybe (bool_decide (is_Some (wkm o))) [wkm_update]
    ++ [apply (wm o); apply (rm1 o)]
    ++ match rm2 o with Some m => [apply m] | None => [] end
    ++ [apply (fpm o); mesh1_updateXProjection].
Proof.
  unfold loop_body. cbn [fst].
  rewrite !List.filter_app, !filter_maybe, output_block_none by auto.
  destruct (renormalize_due opts i), (output_due opts i), (rm2 o);
    reflexivity.
Qed.

Lemma loop_body_normalize o i n :
  List.filter is_normalize (loop_body opts env o i n).1
  = if renormalize_due opts i then [mesh1_normalize] else [].
Proof.
  unfold loop_body. cbn [fst].
  rewrite !List.filter_app, !filter_maybe, output_block_none by auto.
  destruct (renormalize_due opts i), (output_due opts i), (rm2 o),
    (bool_decide (is_Some (wkm o))); reflexivity.
Qed.

Lemma loop_body_integral o i n :
  List.filter is_integral (loop_body opts env o i n).1
  = if renormalize_due opts i then [] else [mesh1_integral].
Proof.
  unfold loop_body. cbn [fst].
  rewrite !List.filter_app, !filter_maybe, output_block_none by auto.
  destruct (renormalize_due opts i), (output_due opts i), (rm2 o),
    (bool_decide (is_Some (wkm o))); reflexivity.
Qed.

Lemma loop_body_wkm_update o i n :
  List.filter is_wkm_update (loop_body opts env o i n).1
  = maybe (bool_decide (is_Some (wkm o))) [wkm_update].
Proof.
  unfold loop_body. cbn [fst].
  rewrite !List.filter_app, !filter_maybe, output_block_none by auto.
  destruct (renormalize_due opts i), (output_due opts i), (rm2 o),
    (bool_decide (is_Some (wkm o))); reflexivity.
Qed.

(** [renormalize > 0 && i%renormalize == 0] says that the positive
    [renormalize] divides [i]. *)
Lemma renormalize_due_spec i :
  renormalize_due opts i = true
  <-> 0 < renormalize opts /\ (renormalize opts | i).
Proof.
  unfold renormalize_due.
  rewrite andb_true_iff, Z.ltb_lt, Z.eqb_eq.
  split; intros [Hr Hd]; (split; [exact Hr|]).
  - apply Z.mod_divide; [lia | exact Hd].
  - apply Z.mod_divide; [lia | exact Hd].
Qed.

(** C7.  In the turn with step index [i], [mesh1->normalize()] is called
    (once) when [renormalize] is positive and divides [i], and
    [mesh1->integral()] is called (once) in every other case, including
    [renormalize = 0]; exactly one of the two calls is issued. *)
Theorem normalize_or_integral (o : Objects) (i outstepnr : Z) :
  let cs := (loop_body opts env o i outstepnr).1 in
  let due := 0 < renormalize opts /\ (renormalize opts | i) in
  (length (List.filter is_normalize cs)
   + length (List.filter is_integral cs) = 1)%nat
  /\ (In mesh1_normalize cs <-> due)
  /\ (In mesh1_integral cs <-> ~ due).
Proof.
  intros cs due. subst cs due.
  rewrite <- renormalize_due_spec.
  assert (forall c, In mesh1_normalize c
                    <-> In mesh1_normalize (List.filter is_normalize c)) as Hn.
  { intros c. rewrite filter_In. cbn. tauto. }
  assert (forall c, In mesh1_integral c
                    <-> In mesh1_integral (List.filter is_integral c)) as Hi.
  { intros c. rewrite filter_In. cbn. tauto. }
  rewrite Hn, Hi, loop_body_normalize, loop_body_integral.
  destruct (renormalize_due opts i); cbn; intuition congruence.
Qed.

End LoopBody.

(* ===================================================================== *)
(** ** main(): the simulation loop *)
(* ===================================================================== *)

Section MainLoop.
Import Main.

Variable to_float : Qc -> Qc.
Variable opts : ProgramOptions.
Variable env : Environment.

Local Abbreviation main_loop_ := (main_loop to_float opts env).
Local Abbreviation turns_trace_ := (turns_trace opts env).
Local Abbreviation loop_test_ := (loop_test to_float opts).
Local Abbreviation bound := (loop_bound to_float opts).

(** Whatever the fuel, the loop has issued the calls of some number of
    consecutive turns and nothing else. *)
Lemma main_loop_log fuel o i nr k t :
  exists m, log_of (main_loop_ fuel o i nr k t) = t ++ turns_trace_ m o i nr.
Proof.
  revert i nr k t. induction fuel as [|fuel IH]; intros i nr k t.
  - exists 0%nat. cbn. now rewrite app_nil_r.
  - cbn [main_loop]. destruct (loop_test_ i).
    + unfold bind, calls.
      destruct (IH (u32 (i + 1)) (loop_body opts env o i nr).2 (S k)
                   (t ++ (loop_body opts env o i nr).1)) as [m Hm].
      exists (S m). rewrite Hm. cbn [turns_trace].
      now rewrite app_assoc.
    + exists 0%nat. cbn. now rewrite app_nil_r.
Qed.

(** If the test holds for the next [m] values of [i] and fails after them,
    the loop takes exactly [m] turns and ends. *)
Lemma main_loop_run (m : nat) fuel o i nr k t :
  0 <= i -> i + Z.of_nat m < 4294967296 ->
  (forall j, i <= j < i + Z.of_nat m -> loop_test_ j = true) ->
  loop_test_ (i + Z.of_nat m) = false ->
  (m < fuel)%nat ->
  main_loop_ fuel o i nr k t
  = Go (k + m)%nat (t ++ turns_trace_ m o i nr).
Proof.
  revert fuel i nr k t. induction m as [|m IH];
    intros fuel i nr k t Hi Hmax Htrue Hfalse Hfuel;
    (destruct fuel as [|fuel]; [lia|]); cbn [main_loop].
  - replace (i + Z.of_nat 0) with i in Hfalse by lia. rewrite Hfalse.
    unfold ret. cbn. now rewrite Nat.add_0_r, app_nil_r.
  - rewrite Htrue by lia. unfold bind, calls.
    rewrite u32_small by lia.
    rewrite IH; try lia.
    + cbn [turns_trace]. rewrite (u32_small (i + 1)) by lia.
      f_equal; [lia | now rewrite app_assoc].
    + intros j Hj. apply Htrue. lia.
    + replace (i + 1 + Z.of_nat m) with (i + Z.of_nat (S m)) by lia.
      exact Hfalse.
Qed.

(** Conversion to [float] is exact on integers up to [2^24]. *)
Hypothesis to_float_exact :
  forall z, 0 <= z <= 16777216 -> to_float (Qc_of_Z z) = Qc_of_Z z.

Lemma loop_test_below (n j : Z) :
  n = Z.max 0 (Qceiling bound) -> n <= 16777216 ->
  0 <= j < n -> loop_test_ j = true.
Proof.
  intros Hn Hmax Hj. unfold loop_test.
  rewrite to_float_exact by lia. apply ltb_spec.
  unfold Qclt. rewrite Qc_of_Z_this.
  apply Qle_lt_trans with (inject_Z (Qceiling bound - 1)).
  - rewrite <- Zle_Qle. lia.
  - apply Qceiling_lt.
Qed.

Lemma loop_test_at (n : Z) :
  n = Z.max 0 (Qceiling bound) -> n <= 16777216 ->
  loop_test_ n = false.
Proof.
  intros Hn Hmax. unfold loop_test.
  rewrite to_float_exact by lia. apply ltb_false.
  unfold Qcle. rewrite Qc_of_Z_this.
  apply Qle_trans with (inject_Z (Qceiling bound)).
  - apply Qle_ceiling.
  - rewrite <- Zle_Qle. lia.
Qed.

(** C6 (amended).  Let [B] be the value of [steps*rotations] as the loop
    test computes it (in single precision, [steps] the clamped number of
    steps).  When [B] does not exceed [2^24], the main simulation loop
    takes exactly [⌈B⌉] turns (none when [B <= 0]), with step indices
    [0 .. ⌈B⌉-1], and then ends. *)
Theorem main_loop_turns (o : Objects) (outstepnr : Z) (t : list Call)
        (n : Z) (fuel : nat) :
  n = Z.max 0 (Qceiling bound) ->
  n <= 16777216 ->
  (Z.to_nat n < fuel)%nat ->
  main_loop_ fuel o 0 outstepnr 0 t
  = Go (Z.to_nat n) (t ++ turns_trace_ (Z.to_nat n) o 0 outstepnr).
Proof.
  intros Hn Hmax Hfuel.
  assert (0 <= n) as Hn0 by lia.
  change (Z.to_nat n) with (0 + Z.to_nat n)%nat at 1.
  apply main_loop_run; try lia.
  - intros j Hj. apply (loop_test_below n); auto. lia.
  - rewrite Z2Nat.id by lia. cbn. now apply loop_test_at.
Qed.

(** When the product is a whole number [m] (and [steps] and [m] do not
    exceed [2^24]), the loop takes exactly [m = steps*rotations] turns. *)
Corollary whole_product_turns (o : Objects) (outstepnr : Z)
          (t : list Call) (r : Z) (fuel : nat) :
  rotations opts = Qc_of_Z r ->
  0 <= r ->
  steps opts <= 16777216 ->
  steps opts * r <= 16777216 ->
  (Z.to_nat (steps opts * r) < fuel)%nat ->
  main_loop_ fuel o 0 outstepnr 0 t
  = Go (Z.to_nat (steps opts * r))
       (t ++ turns_trace_ (Z.to_nat (steps opts * r)) o 0 outstepnr).
Proof.
  intros Hr Hr0 Hsmax Hmax Hfuel.
  pose proof (steps_positive opts) as Hs.
  assert (bound = Qc_of_Z (steps opts * r)) as Hb.
  { unfold loop_bound. rewrite Hr.
    rewrite (to_float_exact (steps opts)) by lia.
    assert (Qc_of_Z (steps opts) * Qc_of_Z r = Qc_of_Z (steps opts * r))%Qc
      as -> .
    { apply Qc_is_canon. cbn. rewrite !Qred_correct.
      unfold inject_Z, Qmult, Qeq. cbn. lia. }
    apply to_float_exact. nia. }
  assert (steps opts * r = Z.max 0 (Qceiling bound)) as Hn
      by (rewrite Hb, Qc_of_Z_this, Qceiling_Z; nia).
  change (Z.to_nat (steps opts * r))
    with (0 + Z.to_nat (steps opts * r))%nat at 1.
  apply main_loop_run; try nia.
  - intros j Hj. apply (loop_test_below (steps opts * r)); auto. lia.
  - rewrite Z2Nat.id by nia. cbn. now apply loop_test_at.
Qed.

End MainLoop.

(* ===================================================================== *)
(** ** The loop of the earlier main() *)
(* ===================================================================== *)

Section LegacyLoop.

Variable to_float : Qc -> Qc.
Variables INOVESA_USE_CL OCLH_active INOVESA_USE_GUI showPhaseSpace : bool.
Variables steps outstep : Z.
Variable rotations : Qc.

Local Abbreviation legacy_loop :=
  (LegacyMain.main_loop to_float INOVESA_USE_CL OCLH_active INOVESA_USE_GUI
                        showPhaseSpace steps outstep rotations).
Local Abbreviation legacy_trace :=
  (LegacyMain.turns_trace INOVESA_USE_CL OCLH_active INOVESA_USE_GUI
                          showPhaseSpace outstep).
Local Abbreviation legacy_test :=
  (LegacyMain.loop_test to_float steps rotations).
Local Abbreviation legacy_bound :=
  (to_float (to_float (Qc_of_Z steps) * rotations)%Qc).

Lemma legacy_loop_run (m : nat) fuel i k t :
  outstep <> 0 ->
  0 <= i -> i + Z.of_nat m < 4294967296 ->
  (forall j, i <= j < i + Z.of_nat m -> legacy_test j = true) ->
  legacy_test (i + Z.of_nat m) = false ->
  (m < fuel)%nat ->
  legacy_loop fuel i k t = Some ((k + m)%nat, t ++ legacy_trace m i).
Proof.
  intros Hout. revert fuel i k t. induction m as [|m IH];
    intros fuel i k t Hi Hmax Htrue Hfalse Hfuel;
    (destruct fuel as [|fuel]; [lia|]); cbn [LegacyMain.main_loop].
  - replace (i + Z.of_nat 0) with i in Hfalse by lia. rewrite Hfalse.
    cbn. now rewrite Nat.add_0_r, app_nil_r.
  - rewrite Htrue by lia.
    assert (exists cs, LegacyMain.loop_body INOVESA_USE_CL OCLH_active
                         INOVESA_USE_GUI showPhaseSpace outstep i = Some cs)
      as [cs Hcs].
    { unfold LegacyMain.loop_body.
      destruct (Z.eqb_spec outstep 0); [contradiction|]. eauto. }
    rewrite Hcs, IH; try lia.
    + cbn [LegacyMain.turns_trace]. rewrite Hcs. cbn [default].
      f_equal. f_equal; [lia | now rewrite app_assoc].
    + rewrite u32_small by lia. lia.
    + rewrite u32_small by lia. lia.
    + intros j Hj. rewrite u32_small in Hj by lia. apply Htrue. lia.
    + rewrite u32_small by lia.
      replace (i + 1 + Z.of_nat m) with (i + Z.of_nat (S m)) by lia.
      exact Hfalse.
Qed.

Hypothesis to_float_exact :
  forall z, 0 <= z <= 16777216 -> to_float (Qc_of_Z z) = Qc_of_Z z.

(** X23.  With the test [i<=steps*rotations] of the earlier [main], a
    product [B >= 0] (at most [2^24]) and an output stride other than 0,
    the loop takes [⌊B⌋ + 1] turns, with step indices [0 .. ⌊B⌋], and then
    ends: one turn more than [B] when [B] is whole. *)
Lemma legacy_loop_floor (t : list LegacyMain.Call) (n : Z) (fuel : nat) :
  outstep <> 0 ->
  (0 <= legacy_bound)%Qc ->
  n = Qfloor legacy_bound + 1 ->
  n <= 16777216 ->
  (Z.to_nat n < fuel)%nat ->
  legacy_loop fuel 0 0 t = Some (Z.to_nat n, t ++ legacy_trace (Z.to_nat n) 0).
Proof.
  intros Hout Hpos Hn Hmax Hfuel.
  assert (0 <= Qfloor legacy_bound) as Hfl.
  { change 0 with (Qfloor 0). apply Qfloor_resp_le. exact Hpos. }
  change (Z.to_nat n) with (0 + Z.to_nat n)%nat at 1.
  apply legacy_loop_run; auto; try lia.
  - intros j Hj. unfold LegacyMain.loop_test, Main.leb.
    rewrite to_float_exact by lia. apply Qle_bool_iff.
    rewrite Qc_of_Z_this.
    apply Qle_trans with (inject_Z (Qfloor legacy_bound)).
    + rewrite <- Zle_Qle. lia.
    + apply Qfloor_le.
  - rewrite Z2Nat.id by lia. cbn.
    unfold LegacyMain.loop_test, Main.leb.
    rewrite to_float_exact by lia.
    apply not_true_iff_false. rewrite Qle_bool_iff, Qc_of_Z_this.
    apply Qlt_not_le. subst n. apply Qlt_floor.
Qed.

End LegacyLoop.

(* ===================================================================== *)
(** ** main(): the objects built by the set-up code *)
(* ===================================================================== *)

Section SetupObjects.
Import Main.

Lemma bind_Go {A B} (m : M A) (f : A -> M B) t b t' :
  bind m f t = Go b t' ->
  exists a t1, m t = Go a t1 /\ f a t1 = Go b t'.
Proof.
  unfold bind. destruct (m t) as [a t1|o]; [|discriminate].
  intros H. now exists a, t1.
Qed.

Variables to_float std_sqrt : Qc -> Qc.
Variable physcons_c : Qc.
Variable opts : ProgramOptions.
Variable env : Environment.

Local Abbreviation setup_ := (setup to_float std_sqrt physcons_c opts env).

Lemma make_rotation_Go t rm t' :
  make_rotation opts t = Go rm t' ->
  map_out (match rm.2 with Some m => m | None => rm.1 end) = mesh3
  /\ (forall m, rm.2 = Some m ->
        rm.1 = new_SourceMap class_RFKickMap mesh2 mesh1
        /\ m = new_SourceMap class_DriftMap mesh1 mesh3)
  /\ (rm.2 = None -> map_class rm.1 = class_RotationMap).
Proof.
  unfold make_rotation.
  destruct (rotationtype opts =? 0)%Z;
    [|destruct (rotationtype opts =? 1)%Z];
    cbn; intros H; injection H as <- _; cbn;
    repeat split; try discriminate; try congruence.
  all: intros m Hm; injection Hm as <-; auto.
Qed.

Lemma make_fpm_Go t f t' :
  make_fpm to_float std_sqrt physcons_c opts t = Go f t' ->
  map_in f = mesh3 /\ map_out f = mesh1.
Proof.
  unfold make_fpm.
  destruct (ltb 0 (e1 to_float std_sqrt physcons_c opts));
    cbn; intros H; injection H as <- _; auto.
Qed.

Lemma make_wkm_Go t w t' :
  make_wkm opts t = Go w t' ->
  w = if (4 <? String.length (wakefile opts))%nat
      then Some (new_SourceMap class_WakeFunctionMap mesh1 mesh2)
      else if negb (Qc_eq_bool (gap opts) 0)
           then Some (new_SourceMap class_WakePotentialMap mesh1 mesh2)
           else None.
Proof.
  unfold make_wkm.
  destruct (4 <? String.length (wakefile opts))%nat;
    [|destruct (negb (Qc_eq_bool (gap opts) 0))];
    cbn; intros H; injection H as <- _; reflexivity.
Qed.

(** The maps handed to the loop. *)
Lemma setup_Go t o t' :
  setup_ t = Go o t' ->
  wm o = make_wm (wkm o)
  /\ wkm o = (if (4 <? String.length (wakefile opts))%nat
              then Some (new_SourceMap class_WakeFunctionMap mesh1 mesh2)
              else if negb (Qc_eq_bool (gap opts) 0)
                   then Some (new_SourceMap class_WakePotentialMap mesh1 mesh2)
                   else None)
  /\ map_out (match rm2 o with Some m => m | None => rm1 o end) = mesh3
  /\ map_in (fpm o) = mesh3 /\ map_out (fpm o) = mesh1.
Proof.
  unfold setup. intros H.
  apply bind_Go in H as (active & t1 & _ & H).
  apply bind_Go in H as (_u & t2 & _ & H).
  apply bind_Go in H as (rm & t3 & Hrm & H).
  apply bind_Go in H as (f & t4 & Hf & H).
  apply bind_Go in H as (w & t5 & Hw & H).
  apply bind_Go in H as (_v & t6 & _ & H).
  apply bind_Go in H as (_w & t7 & _ & H).
  unfold ret in H. injection H as <- _. cbn.
  apply make_rotation_Go in Hrm as (Hrm & _).
  apply make_fpm_Go in Hf as (Hf1 & Hf2).
  apply make_wkm_Go in Hw.
  repeat split; assumption.
Qed.

Lemma make_wm_meshes w :
  w = (if (4 <? String.length (wakefile opts))%nat
       then Some (new_SourceMap class_WakeFunctionMap mesh1 mesh2)
       else if negb (Qc_eq_bool (gap opts) 0)
            then Some (new_SourceMap class_WakePotentialMap mesh1 mesh2)
            else None) ->
  map_in (make_wm w) = mesh1 /\ map_out (make_wm w) = mesh2.
Proof.
  intros ->.
  destruct (4 <? String.length (wakefile opts))%nat;
    [|destruct (negb (Qc_eq_bool (gap opts) 0))]; auto.
Qed.

(** C3 (amended).  In every turn of the main simulation loop the stages
    run in this order: [wkm->update()] first when a wake-kick map exists
    (it is skipped when [wkm] is [nullptr]), then [wm->apply()] from mesh1
    into mesh2, then [rm1->apply()] followed by [rm2->apply()] when [rm2]
    exists, the last of them writing mesh3, then [fpm->apply()] from mesh3
    into mesh1, and finally [mesh1->updateXProjection()]. *)
Theorem stage_order (t : list Call) (o : Objects) (t' : list Call)
        (i outstepnr : Z) :
  setup_ t = Go o t' ->
  List.filter is_stage (loop_body opts env o i outstepnr).1
  = match wkm o with Some _ => [wkm_update] | None => [] end
    ++ [apply (wm o); apply (rm1 o)]
    ++ match rm2 o with Some m => [apply m] | None => [] end
    ++ [apply (fpm o); mesh1_updateXProjection]
  /\ map_in (wm o) = mesh1 /\ map_out (wm o) = mesh2
  /\ map_out (match rm2 o with Some m => m | None => rm1 o end) = mesh3
  /\ map_in (fpm o) = mesh3 /\ map_out (fpm o) = mesh1.
Proof.
  intros H. apply setup_Go in H as (Hwm & Hwkm & Hrm & Hf1 & Hf2).
  rewrite loop_body_stages.
  split; [|rewrite Hwm; pose proof (make_wm_meshes _ Hwkm); tauto].
  destruct (wkm o); reflexivity.
Qed.

(** C10.  When the vacuum-chamber gap is 0 and no wake file is configured
    (the name has at most 4 characters), no wake-kick map is built
    ([wkm] is [nullptr]), the wake stage [wm] of every turn is an Identity
    map from mesh1 to mesh2, which copies its input unchanged, and no turn
    of the loop, however many are run, calls [wkm->update()]. *)
Theorem no_wake_map (t : list Call) (o : Objects) (t' : list Call) :
  gap opts = 0%Qc ->
  (String.length (getWakeFile opts) <= 4)%nat ->
  setup_ t = Go o t' ->
  wkm o = None
  /\ wm o = new_SourceMap class_Identity mesh1 mesh2
  /\ (forall data_in, Identity_apply data_in = data_in)
  /\ (forall i outstepnr,
        In (apply (new_SourceMap class_Identity mesh1 mesh2))
           (loop_body opts env o i outstepnr).1
        /\ ~ In wkm_update (loop_body opts env o i outstepnr).1)
  /\ (forall fuel i outstepnr turns t0,
        ~ In wkm_update t0 ->
        ~ In wkm_update
            (log_of (main_loop to_float opts env fuel o i outstepnr
                               turns t0))).
Proof.
  intros Hgap Hfile H. apply setup_Go in H as (Hwm & Hwkm & _).
  assert (wkm o = None) as Hnone.
  { rewrite Hwkm. unfold wakefile.
    destruct (Nat.ltb_spec 4 (String.length (getWakeFile opts))); [lia|].
    rewrite Hgap. reflexivity. }
  assert (wm o = new_SourceMap class_Identity mesh1 mesh2) as Hid
      by (rewrite Hwm, Hnone; reflexivity).
  assert (forall i n, ~ In wkm_update (loop_body opts env o i n).1) as Hno.
  { intros i n Hin.
    assert (In wkm_update
               (List.filter is_wkm_update (loop_body opts env o i n).1)) as Hf
        by (apply filter_In; split; [exact Hin | reflexivity]).
    rewrite loop_body_wkm_update, Hnone in Hf. destruct Hf. }
  repeat split; auto.
  - assert (In (apply (wm o))
               (List.filter is_stage (loop_body opts env o i outstepnr).1)) as Hf.
    { rewrite loop_body_stages. apply in_app_iff. right. now left. }
    apply filter_In in Hf as [Hf _]. now rewrite Hid in Hf.
  - intros fuel i outstepnr turns t0 Ht0 Hin.
    destruct (main_loop_log to_float opts env fuel o i outstepnr turns t0)
      as [m Hm].
    rewrite Hm in Hin. apply in_app_iff in Hin as [Hin|Hin]; [tauto|].
    clear Hm. revert i outstepnr Hin.
    induction m as [|m IH]; intros i n Hin; [destruct Hin|].
    cbn [turns_trace] in Hin. apply in_app_iff in Hin as [Hin|Hin].
    + exact (Hno _ _ Hin).
    + exact (IH _ _ Hin).
Qed.

End SetupObjects.

(* ===================================================================== *)
(** ** main(): leaving during set-up *)
(* ===================================================================== *)

Section EarlyExit.
Import Main.
Local Open Scope string_scope.

Variable opts : ProgramOptions.
Variable env : Environment.

Local Abbreviation quiet_M := (Main.quiet_M env).

Lemma quiet_ret {A} (a : A) : quiet_M (ret a).
Proof. intros t Ht. exact Ht. Qed.

Lemma quiet_call c : quiet c -> quiet_M (call c).
Proof.
  intros Hc t Ht. cbn. apply Forall_app. split; [exact Ht|].
  constructor; [exact Hc | constructor].
Qed.

Lemma quiet_exit_success {A} : quiet_M (@exit A EXIT_SUCCESS).
Proof. intros t Ht. cbn. auto. Qed.

Lemma quiet_bind {A B} (m : M A) (f : A -> M B) :
  quiet_M m -> (forall a, quiet_M (f a)) -> quiet_M (bind m f).
Proof.
  intros Hm Hf t Ht. unfold bind. specialize (Hm t Ht).
  destruct (m t) as [a t1|o]; [|exact Hm].
  exact (Hf a t1 Hm).
Qed.

Lemma quiet_when b m : quiet_M m -> quiet_M (when b m).
Proof. intros Hm. destruct b; [exact Hm | apply quiet_ret]. Qed.

Lemma quiet_if {A} (b : bool) (m1 m2 : M A) :
  quiet_M m1 -> quiet_M m2 -> quiet_M (if b then m1 else m2).
Proof. now destruct b. Qed.

Ltac solve_quiet :=
  repeat first
    [ apply quiet_bind; [|intros ?]
    | apply quiet_when
    | apply quiet_if
    | apply quiet_ret
    | apply quiet_exit_success
    | apply quiet_call; reflexivity ].

Lemma quiet_parse_options : quiet_M (parse_options env).
Proof.
  unfold parse_options. destruct (parse env) eqn:Hp; solve_quiet.
  intros t Ht. cbn. split; [exact Ht | congruence].
Qed.

Lemma quiet_before_impedance : quiet_M (before_impedance opts env).
Proof.
  unfold before_impedance.
  apply quiet_bind; [apply quiet_parse_options | intros _].
  unfold started_message, opencl_setup, shielding_messages,
    verbose_messages, make_mesh1, make_psv, particles_message.
  solve_quiet.
Qed.

Lemma make_impedance_rejects t :
  getImpedanceFile opts <> EmptyString ->
  impedance_nFreqs env < ps_size opts ->
  make_impedance opts env t
  = Halt (Returned EXIT_SUCCESS
            (t ++ [printText ("Reading impedance from: " ++ dq
                              ++ getImpedanceFile opts ++ dq);
                   printText "No valid impedance file. Will now quit."])).
Proof.
  intros Hfile Hn. unfold make_impedance.
  destruct (String.eqb_spec (getImpedanceFile opts) EmptyString) as [|_];
    [contradiction|].
  apply Z.ltb_lt in Hn. rewrite Hn.
  unfold bind, call, when, exit. cbn. now rewrite <- app_assoc.
Qed.

Variables to_float std_sqrt : Qc -> Qc.
Variable physcons_c : Qc.

(** C8 (amended).  If the impedance is read from a file and the file
    yields fewer than [ps_size] frequency samples, [main] returns before a
    single map is built and before any call that advances or evaluates the
    simulation: having printed "No valid impedance file. Will now quit." it
    leaves with exit status [EXIT_SUCCESS]; the rejection is reported as a
    message, not through the exit status. *)
Theorem short_impedance_file_rejected (fuel : nat) :
  getImpedanceFile opts <> EmptyString ->
  impedance_nFreqs env < ps_size opts ->
  exists code t,
    main to_float std_sqrt physcons_c opts env fuel = Returned code t
    /\ Forall (fun c => is_simulation_call c = false) t
    /\ (parse env <> parse_throws -> code = EXIT_SUCCESS)
    /\ (forall active t0,
          before_impedance opts env [] = Go active t0 ->
          code = EXIT_SUCCESS
          /\ t = (t0 ++ [printText ("Reading impedance from: " ++ dq
                                    ++ getImpedanceFile opts ++ dq);
                         printText "No valid impedance file. Will now quit."]
                 )%list).
Proof.
  intros Hfile Hn.
  pose proof (quiet_before_impedance [] (Forall_nil_2 _)) as Hq.
  unfold main, main_body, setup.
  unfold bind at 1. unfold bind at 1.
  destruct (before_impedance opts env []) as [active t0|[code t'|t'|t']].
  - unfold bind at 1. rewrite make_impedance_rejects by assumption.
    eexists _, _. split; [reflexivity|]. split; [|split].
    + apply Forall_app. split; [exact Hq|]. repeat constructor.
    + reflexivity.
    + intros active' t0' H. injection H as _ <-. now split.
  - destruct Hq as [Hq Hcode].
    exists code, t'. repeat split; auto; discriminate.
  - destruct Hq.
  - destruct Hq.
Qed.

End EarlyExit.

(* ===================================================================== *)
(** ** main() on concrete configurations *)
(* ===================================================================== *)

Section MainExamples.
Import Main Examples.
Local Open Scope string_scope.

Example setup_nogap :
  setup exact sqrt_down c opts_nogap (environment 0) []
  = Go objects_nogap
       [printText_fmt "Started Inovesa (";
        printText "Will use free space CSR impedance.";
        printText "Building RFKickMap.";
        printText "Building DriftMap.";
        printText "Building FokkerPlanckMap.";
        printText "Calculating WakePotential."].
Proof. vm_compute. reflexivity. Qed.

(** C3, witness: with a vacuum-chamber gap of 32 mm the set-up code builds
    a wake-kick map, and the stages of turn 0 are in the stated order. *)
Lemma stage_order_witness :
  match setup exact sqrt_down c opts_gap (environment 0) [] with
  | Go o _ =>
      List.filter is_stage (loop_body opts_gap (environment 0) o 0 0).1
      = (match wkm o with Some _ => [wkm_update] | None => [] end
         ++ [apply (wm o); apply (rm1 o)]
         ++ match rm2 o with Some m => [apply m] | None => [] end
         ++ [apply (fpm o); mesh1_updateXProjection])%list
      /\ map_in (wm o) = mesh1 /\ map_out (wm o) = mesh2
      /\ map_out (match rm2 o with Some m => m | None => rm1 o end) = mesh3
      /\ map_in (fpm o) = mesh3 /\ map_out (fpm o) = mesh1
  | Halt _ => False
  end.
Proof.
  destruct (setup exact sqrt_down c opts_gap (environment 0) [])
    as [o t'|out] eqn:H.
  - exact (stage_order exact sqrt_down c opts_gap (environment 0)
                       [] o t' 0 0 H).
  - vm_compute in H. discriminate H.
Defined.

(** C3, counterexample: with [gap = 0] and no wake file a complete run of
    one step never calls [wkm->update()]; the first stage of the turn is
    the application of the Identity map that stands in for the wake kick. *)
Lemma stage_order_counterexample :
  exists t,
    main exact sqrt_down c opts_nogap (environment 0) 2
    = Returned EXIT_SUCCESS t
    /\ List.filter is_stage t
       = [mesh1_updateXProjection;
          apply (new_SourceMap class_Identity mesh1 mesh2);
          apply (new_SourceMap class_RFKickMap mesh2 mesh1);
          apply (new_SourceMap class_DriftMap mesh1 mesh3);
          apply (new_SourceMap class_FokkerPlanckMap mesh3 mesh1);
          mesh1_updateXProjection]
    /\ ~ In wkm_update t
    /\ hd_error (List.filter is_stage
                   (loop_body opts_nogap (environment 0) objects_nogap 0 0).1)
       <> Some wkm_update.
Proof.
  eexists. split; [vm_compute; reflexivity|].
  split; [reflexivity|]. split.
  - cbn. intros H. decompose [or] H; discriminate || assumption.
  - vm_compute. discriminate.
Qed.

Lemma exact_on_integers :
  forall z, 0 <= z <= 16777216 -> exact (Qc_of_Z z) = Qc_of_Z z.
Proof. reflexivity. Qed.

(** C6, witness: 4 steps per period and half a period give 2 turns. *)
Lemma main_loop_turns_witness :
  main_loop exact opts_four (environment 0) 3 objects_nogap 0 0 0 []
  = Go (Z.to_nat 2)
       ([] ++ turns_trace opts_four (environment 0) (Z.to_nat 2)
                          objects_nogap 0 0).
Proof.
  apply (main_loop_turns exact opts_four (environment 0) exact_on_integers
                         objects_nogap 0 [] 2 3).
  - vm_compute. reflexivity.
  - lia.
  - vm_compute. lia.
Defined.

(** C6, counterexample: with one step per period and [rotations = 0.5]
    the loop takes one turn, while [steps × rotations] is one half. *)
Lemma main_loop_turns_counterexample :
  exists t,
    main_loop exact opts_half (environment 0) 5 objects_nogap 0 0 0 []
    = Go 1%nat t
    /\ (Qc_of_Z (steps opts_half) * rotations opts_half)%Qc = Q2Qc (1 # 2)
    /\ Qc_of_Z 1 <> (Qc_of_Z (steps opts_half) * rotations opts_half)%Qc.
Proof.
  eexists. split; [vm_compute; reflexivity|]. split.
  - apply Qc_is_canon. vm_compute. reflexivity.
  - intros H. apply (f_equal this) in H. vm_compute in H. discriminate H.
Qed.

(** The loop of the earlier [main] (bound [i<=steps*rotations]) takes one
    turn more: 3 turns for 2 steps per period and one period. *)
Lemma legacy_loop_turns :
  exists t,
    LegacyMain.main_loop exact false false false false 2 1 1%Qc 10 0 0 []
    = Some (3%nat, t).
Proof. eexists. vm_compute. reflexivity. Qed.

(** C8, witness: an impedance file with 100 samples on a 256 x 256 grid. *)
Lemma short_impedance_file_rejected_witness :
  exists code t,
    main exact sqrt_down c opts_file (environment 100) 0 = Returned code t
    /\ Forall (fun c => is_simulation_call c = false) t
    /\ (parse (environment 100) <> parse_throws -> code = EXIT_SUCCESS)
    /\ (forall active t0,
          before_impedance opts_file (environment 100) [] = Go active t0 ->
          code = EXIT_SUCCESS
          /\ t = (t0 ++ [printText ("Reading impedance from: " ++ dq
                                    ++ getImpedanceFile opts_file ++ dq);
                         printText "No valid impedance file. Will now quit."]
                 )%list).
Proof.
  apply (short_impedance_file_rejected opts_file (environment 100)
                                       exact sqrt_down c 0).
  - discriminate.
  - vm_compute. reflexivity.
Defined.

(** C8, counterexample: the run that rejects the impedance file ends with
    exit status [EXIT_SUCCESS], as a run without any error does. *)
Lemma short_impedance_file_counterexample :
  getImpedanceFile opts_file <> EmptyString
  /\ impedance_nFreqs (environment 100) < ps_size opts_file
  /\ main exact sqrt_down c opts_file (environment 100) 0
     = Returned EXIT_SUCCESS
         [printText_fmt "Started Inovesa (";
          printText ("Reading impedance from: " ++ dq ++ "Z.dat" ++ dq);
          printText "No valid impedance file. Will now quit."]
  /\ forall t, main exact sqrt_down c opts_file (environment 100) 0
               <> Returned EXIT_FAILURE t.
Proof.
  split; [discriminate|]. split; [vm_compute; reflexivity|].
  split; [vm_compute; reflexivity|].
  intros t H. vm_compute in H. discriminate H.
Qed.

(** C9, counterexample: with 0 steps and a synchrotron frequency of 0
    configured, [steps] is 1 and the divisor [fs*steps] of [dt] is 0. *)
Lemma steps_clamped_counterexample :
  getSteps opts_zero = 0
  /\ steps opts_zero = 1
  /\ dt_divisor exact sqrt_down c opts_zero = 0%Qc.
Proof.
  split; [reflexivity|]. split; [reflexivity|].
  apply Qc_is_canon. vm_compute. reflexivity.
Qed.

(** C10, witness: [gap = 0] and an empty wake file name. *)
Lemma no_wake_map_witness :
  match setup exact sqrt_down c opts_nogap (environment 0) [] with
  | Go o _ =>
      wkm o = None
      /\ wm o = new_SourceMap class_Identity mesh1 mesh2
      /\ (forall data_in, Identity_apply data_in = data_in)
      /\ (forall i outstepnr,
            In (apply (new_SourceMap class_Identity mesh1 mesh2))
               (loop_body opts_nogap (environment 0) o i outstepnr).1
            /\ ~ In wkm_update
                   (loop_body opts_nogap (environment 0) o i outstepnr).1)
      /\ (forall fuel i outstepnr turns t0,
            ~ In wkm_update t0 ->
            ~ In wkm_update
                (log_of (main_loop exact opts_nogap (environment 0) fuel o
                                   i outstepnr turns t0)))
  | Halt _ => False
  end.
Proof.
  destruct (setup exact sqrt_down c opts_nogap (environment 0) [])
    as [o t'|out] eqn:H.
  - apply (no_wake_map exact sqrt_down c opts_nogap (environment 0)
                       [] o t').
    + reflexivity.
    + vm_compute. lia.
    + exact H.
  - vm_compute in H. discriminate H.
Defined.

End MainExamples.

(* ===================================================================== *)
(** * Further properties *)
(* ===================================================================== *)

(** ** The stencil as a whole *)

Section WholeStencil.
Import HeritageMap FokkerPlanckMap.

Variable dp : Qc.
Variable x1 : nat -> Qc.
Variables xsize ysize : Z.
Variable fpt : FPType.
Variable e0 : Qc.

Local Abbreviation Nx := (_xsize xsize).
Local Abbreviation Ny := (_ysize ysize).
Local Abbreviation entry_ := (entry dp x1 ysize fpt e0).

(** Every position of the storage is one of the [_heritage_map[i][j][k]]. *)
Lemma offset_decompose p :
  (p < 3 * _size xsize ysize)%nat ->
  exists i j k, (i < Nx)%nat /\ (j < Ny)%nat /\ (k < 3)%nat
                /\ p = offset 3 Ny i j k.
Proof.
  unfold _size, offset. intros Hp.
  assert (0 < Ny)%nat as Hy by nia.
  exists ((p / 3) / Ny)%nat, ((p / 3) mod Ny)%nat, (p mod 3)%nat.
  pose proof (Nat.div_mod_eq p 3) as H3.
  pose proof (Nat.div_mod_eq (p / 3) Ny) as Hn.
  pose proof (Nat.mod_upper_bound p 3 ltac:(lia)) as Hk.
  pose proof (Nat.mod_upper_bound (p / 3) Ny ltac:(lia)) as Hj.
  repeat split; try assumption; [|nia].
  assert (p / 3 < Nx * Ny)%nat as Hq by lia.
  apply Nat.Div0.div_lt_upper_bound. nia.
Qed.

(** The stencil, position by position. *)
Lemma construct_table hinfo0 p :
  length hinfo0 = (3 * _size xsize ysize)%nat ->
  (p < 3 * _size xsize ysize)%nat ->
  exists i j k, (i < Nx)%nat /\ (j < Ny)%nat /\ (k < 3)%nat
                /\ p = offset 3 Ny i j k
                /\ construct dp x1 xsize ysize fpt e0 hinfo0 !! p
                   = Some (entry_ i j k).
Proof.
  intros Hlen Hp.
  destruct (offset_decompose p Hp) as (i & j & k & Hi & Hj & Hk & ->).
  exists i, j, k. repeat split; auto. now apply construct_lookup.
Qed.

End WholeStencil.

Section StencilExtras.
Import HeritageMap FokkerPlanckMap.

(** X1.  On a mesh with at least one row the constructor assigns every
    pair of the stencil: the result does not depend on what the storage
    held before. *)
Theorem stencil_overwrites_storage
        (dp : Qc) (x1 : nat -> Qc) (xsize ysize : Z) (fpt : FPType)
        (e0 : Qc) (hinfo1 hinfo2 : list hi) :
  (0 < _ysize ysize)%nat ->
  length hinfo1 = (3 * _size xsize ysize)%nat ->
  length hinfo2 = (3 * _size xsize ysize)%nat ->
  construct dp x1 xsize ysize fpt e0 hinfo1
  = construct dp x1 xsize ysize fpt e0 hinfo2.
Proof.
  intros _ H1 H2. apply list_eq. intros p.
  destruct (Nat.lt_ge_cases p (3 * _size xsize ysize)) as [Hp|Hp].
  - destruct (construct_table dp x1 xsize ysize fpt e0 hinfo1 p H1 Hp)
      as (i & j & k & Hi & Hj & Hk & Hpos & ->).
    rewrite Hpos. symmetry. now apply construct_lookup.
  - rewrite !(proj2 (lookup_ge_None _ _)); auto;
      rewrite construct_length; lia.
Qed.

(** X2.  Every pair of the stencil names a cell of the mesh: its index is
    below [_xsize*_ysize], so that no application reads outside the input
    mesh. *)
Theorem stencil_reads_inside_mesh
        (dp : Qc) (x1 : nat -> Qc) (xsize ysize : Z) (fpt : FPType)
        (e0 : Qc) (hinfo0 : list hi) (p : nat) (h : hi) :
  length hinfo0 = (3 * _size xsize ysize)%nat ->
  construct dp x1 xsize ysize fpt e0 hinfo0 !! p = Some h ->
  0 <= index h < Z.of_nat (_size xsize ysize).
Proof.
  intros Hlen Hh.
  assert (p < 3 * _size xsize ysize)%nat as Hp.
  { apply lookup_lt_Some in Hh. rewrite construct_length in Hh. lia. }
  destruct (construct_table dp x1 xsize ysize fpt e0 hinfo0 p Hlen Hp)
    as (i & j & k & Hi & Hj & Hk & _ & Hlook).
  rewrite Hlook in Hh. injection Hh as <-.
  now apply entry_index_in_range.
Qed.

(** X3.  For the map built with [FPType::damping_only] every interior row
    [j] holds the pairs (cell [j-1], [e0/(2·dp)·p_j]), (cell [j],
    [1 + e0]) and (cell [j+1], [-e0/(2·dp)·p_j]). *)
Theorem damping_only_interior_weights
        (dp : Qc) (x1 : nat -> Qc) (xsize ysize : Z) (e0 : Qc)
        (hinfo0 : list hi) (i j : nat) :
  length hinfo0 = (3 * _size xsize ysize)%nat ->
  (i < _xsize xsize)%nat ->
  (0 < j < _ysize ysize - 1)%nat ->
  let m := construct dp x1 xsize ysize damping_only e0 hinfo0 in
  let q := (i * _ysize ysize + j)%nat in
  m !! offset 3 (_ysize ysize) i j 0
    = Some (mk_hi (Z.of_nat q - 1) (e0 / (2 * dp) * x1 j)%Qc)
  /\ m !! offset 3 (_ysize ysize) i j 1
    = Some (mk_hi (Z.of_nat q) (1 + e0)%Qc)
  /\ m !! offset 3 (_ysize ysize) i j 2
    = Some (mk_hi (Z.of_nat q + 1) (- (e0 / (2 * dp)) * x1 j)%Qc).
Proof.
  intros Hlen Hi Hj m q. subst m q.
  rewrite !construct_lookup by (auto; lia).
  unfold entry. rewrite boundary_interior by exact Hj.
  cbn [interior pick fst snd].
  rewrite !(src_small xsize) by (auto; lia).
  rewrite (src0_small xsize) by (auto; lia).
  repeat split.
Qed.

(** X4.  For the map built with [FPType::diffusion_only] every interior row
    [j] holds the pairs (cell [j-1], [e0/dp²]), (cell [j], [1 - 2·e0/dp²])
    and (cell [j+1], [e0/dp²]): the weights are symmetric and do not depend
    on the row. *)
Theorem diffusion_only_interior_weights
        (dp : Qc) (x1 : nat -> Qc) (xsize ysize : Z) (e0 : Qc)
        (hinfo0 : list hi) (i j : nat) :
  length hinfo0 = (3 * _size xsize ysize)%nat ->
  (i < _xsize xsize)%nat ->
  (0 < j < _ysize ysize - 1)%nat ->
  let m := construct dp x1 xsize ysize diffusion_only e0 hinfo0 in
  let q := (i * _ysize ysize + j)%nat in
  m !! offset 3 (_ysize ysize) i j 0
    = Some (mk_hi (Z.of_nat q - 1) (e0 / (dp * dp))%Qc)
  /\ m !! offset 3 (_ysize ysize) i j 1
    = Some (mk_hi (Z.of_nat q) (1 - 2 * (e0 / (dp * dp)))%Qc)
  /\ m !! offset 3 (_ysize ysize) i j 2
    = Some (mk_hi (Z.of_nat q + 1) (e0 / (dp * dp))%Qc).
Proof.
  intros Hlen Hi Hj m q. subst m q.
  rewrite !construct_lookup by (auto; lia).
  unfold entry. rewrite boundary_interior by exact Hj.
  cbn [interior pick fst snd].
  rewrite !(src_small xsize) by (auto; lia).
  rewrite (src0_small xsize) by (auto; lia).
  repeat split.
Qed.

(** X5.  On a mesh with at most two rows every row is a boundary row: for
    every variant the whole stencil consists of pairs [{0,0}]. *)
Theorem two_row_mesh_all_zero
        (dp : Qc) (x1 : nat -> Qc) (xsize ysize : Z) (fpt : FPType)
        (e0 : Qc) (hinfo0 : list hi) (p : nat) (h : hi) :
  length hinfo0 = (3 * _size xsize ysize)%nat ->
  (_ysize ysize <= 2)%nat ->
  construct dp x1 xsize ysize fpt e0 hinfo0 !! p = Some h ->
  h = mk_hi 0 0%Qc.
Proof.
  intros Hlen Hy Hh.
  assert (p < 3 * _size xsize ysize)%nat as Hp.
  { apply lookup_lt_Some in Hh. rewrite construct_length in Hh. lia. }
  destruct (construct_table dp x1 xsize ysize fpt e0 hinfo0 p Hlen Hp)
    as (i & j & k & Hi & Hj & Hk & _ & Hlook).
  rewrite Hlook in Hh. injection Hh as <-.
  unfold entry.
  assert (boundary ysize j = true) as ->
      by (apply bool_decide_eq_true_2; lia).
  reflexivity.
Qed.

(** X6.  The weights depend on the row only: the pairs at row [j] of any
    two columns carry the same weights (the stencil is one-dimensional in
    p). *)
Theorem weights_same_in_every_column
        (dp : Qc) (x1 : nat -> Qc) (xsize ysize : Z) (fpt : FPType)
        (e0 : Qc) (hinfo0 : list hi) (i i' j k : nat) (h h' : hi) :
  length hinfo0 = (3 * _size xsize ysize)%nat ->
  (i < _xsize xsize)%nat -> (i' < _xsize xsize)%nat ->
  (j < _ysize ysize)%nat -> (k < 3)%nat ->
  construct dp x1 xsize ysize fpt e0 hinfo0
    !! offset 3 (_ysize ysize) i j k = Some h ->
  construct dp x1 xsize ysize fpt e0 hinfo0
    !! offset 3 (_ysize ysize) i' j k = Some h' ->
  weight h = weight h'.
Proof.
  intros Hlen Hi Hi' Hj Hk Hh Hh'.
  rewrite construct_lookup in Hh, Hh' by assumption.
  injection Hh as <-. injection Hh' as <-.
  unfold entry. destruct (boundary ysize j); [reflexivity|].
  assert (k = 0 \/ k = 1 \/ k = 2)%nat as Hk3 by lia.
  destruct Hk3 as [->|[->| ->]]; destruct fpt; reflexivity.
Qed.

End StencilExtras.

Section Inflow.
Import HeritageMap FokkerPlanckMap.

(** X7.  For the three-point variants, a cell [(i, m)] at least two rows
    away from both boundaries is read by exactly three pairs of the stencil:
    pair 0 of row [m+1], pair 1 of row [m] and pair 2 of row [m-1], all in
    column [i].  Their weights sum to 1 for diffusion-only and to
    [1 + e0 + e0/(2·dp)·(p_(m+1) - p_(m-1))] for damping-only and full,
    which is [1 + 2·e0] on an axis with spacing [dp]. *)
Theorem bulk_cell_inflow
        (dp : Qc) (x1 : nat -> Qc) (xsize ysize : Z) (fpt : FPType)
        (e0 : Qc) (hinfo0 : list hi) (i m : nat) :
  fpt <> none ->
  length hinfo0 = (3 * _size xsize ysize)%nat ->
  (i < _xsize xsize)%nat ->
  (2 <= m)%nat -> (m + 3 <= _ysize ysize)%nat ->
  let st := construct dp x1 xsize ysize fpt e0 hinfo0 in
  let Ny := _ysize ysize in
  let q := Z.of_nat (i * Ny + m) in
  let total :=
    match fpt with
    | diffusion_only => 1%Qc
    | _ => (1 + e0 + e0 / (2 * dp) * (x1 (m + 1)%nat - x1 (m - 1)%nat))%Qc
    end in
  (forall i' j' k' h,
      (i' < _xsize xsize)%nat -> (j' < Ny)%nat -> (k' < 3)%nat ->
      st !! offset 3 Ny i' j' k' = Some h -> index h = q ->
      i' = i /\ (j' + k' = m + 1)%nat)
  /\ (exists a b c,
         st !! offset 3 Ny i (m + 1) 0 = Some a
         /\ st !! offset 3 Ny i m 1 = Some b
         /\ st !! offset 3 Ny i (m - 1) 2 = Some c
         /\ index a = q /\ index b = q /\ index c = q
         /\ (weight a + weight b + weight c)%Qc = total)
  /\ (fpt <> diffusion_only -> dp <> 0%Qc ->
      (x1 (m + 1)%nat - x1 (m - 1)%nat)%Qc = (2 * dp)%Qc ->
      total = (1 + 2 * e0)%Qc).
Proof.
  intros Hfpt Hlen Hi Hm1 Hm2 st Ny q total. subst st Ny q total.
  pose proof (sizes_u16 xsize ysize) as [Hx Hy].
  split; [|split].
  - intros i' j' k' h Hi' Hj' Hk' Hh Hidx.
    rewrite construct_lookup in Hh by assumption. injection Hh as <-.
    unfold entry in Hidx.
    destruct (boundary ysize j') eqn:Hb; [cbn in Hidx; lia|].
    apply bool_decide_eq_false in Hb.
    assert (0 < j' < _ysize ysize - 1)%nat as Hint by lia.
    assert (k' = 0 \/ k' = 1 \/ k' = 2)%nat as Hk3 by lia.
    destruct Hk3 as [->|[->| ->]]; destruct fpt; try contradiction;
      cbn [interior pick fst snd index] in Hidx;
      rewrite ?(src_small xsize), ?(src0_small xsize) in Hidx
        by (auto; lia);
      (assert (i' = i) by nia; subst i'; split; [reflexivity|nia]).
  - rewrite !construct_lookup by (auto; lia).
    unfold entry. rewrite !boundary_interior by lia.
    eexists _, _, _. repeat split.
    + destruct fpt; try contradiction; cbn [interior pick fst snd index];
        rewrite (src_small xsize) by (auto; lia); lia.
    + destruct fpt; try contradiction; cbn [interior pick fst snd index];
        rewrite (src0_small xsize) by (auto; lia); lia.
    + destruct fpt; try contradiction; cbn [interior pick fst snd index];
        rewrite (src_small xsize) by (auto; lia); lia.
    + destruct fpt; try contradiction; cbn [interior pick fst snd weight];
        unfold daome, diome, fptme, e02d; ring.
  - intros Hd Hdp Hax. destruct fpt; try contradiction;
      rewrite Hax; field;
      (split; [exact Hdp | intros H; apply (f_equal this) in H; discriminate H]).
Qed.

End Inflow.

(** ** The stencil on small grids, continued *)

Section StencilExtrasExamples.
Import HeritageMap FokkerPlanckMap.

Local Abbreviation p3 := (fun j : nat => (Qc_of_Z (Z.of_nat j) - 1)%Qc).
Local Abbreviation p5 := (fun j : nat => (Qc_of_Z (Z.of_nat j) - 2)%Qc).
Local Abbreviation zeroed := (replicate 27 sentinel).

(** X1, witness: zeroed storage and storage filled with [{7,1}]. *)
Lemma stencil_overwrites_storage_witness :
  construct 1 p3 3 3 full 1 zeroed
  = construct 1 p3 3 3 full 1 (replicate 27 (mk_hi 7 1%Qc)).
Proof.
  apply (stencil_overwrites_storage 1 p3 3 3 full 1 zeroed
                                    (replicate 27 (mk_hi 7 1%Qc)));
    [vm_compute; lia | reflexivity | reflexivity].
Defined.

(** X2, witness: the pair at position 3 of the map built with
    [FPType::none]. *)
Lemma stencil_reads_inside_mesh_witness :
  0 <= index (mk_hi 1 1%Qc) < Z.of_nat (_size 3 3).
Proof.
  apply (stencil_reads_inside_mesh 1 p3 3 3 none 1 zeroed 3 (mk_hi 1 1%Qc)).
  - reflexivity.
  - vm_compute. reflexivity.
Defined.

(** X3, witness: column 0, row 1 of the 3 x 3 grid. *)
Lemma damping_only_interior_weights_witness :
  let m := construct 1 p3 3 3 damping_only 1 zeroed in
  m !! offset 3 (_ysize 3) 0 1 0
    = Some (mk_hi (Z.of_nat (0 * _ysize 3 + 1) - 1) (1 / (2 * 1) * p3 1%nat)%Qc)
  /\ m !! offset 3 (_ysize 3) 0 1 1
    = Some (mk_hi (Z.of_nat (0 * _ysize 3 + 1)) (1 + 1)%Qc)
  /\ m !! offset 3 (_ysize 3) 0 1 2
    = Some (mk_hi (Z.of_nat (0 * _ysize 3 + 1) + 1)
                  (- (1 / (2 * 1)) * p3 1%nat)%Qc).
Proof.
  apply (damping_only_interior_weights 1 p3 3 3 1 zeroed 0 1).
  - reflexivity.
  - vm_compute. lia.
  - vm_compute. lia.
Defined.

(** X4, witness: column 0, row 1 of the 3 x 3 grid. *)
Lemma diffusion_only_interior_weights_witness :
  let m := construct 1 p3 3 3 diffusion_only 1 zeroed in
  m !! offset 3 (_ysize 3) 0 1 0
    = Some (mk_hi (Z.of_nat (0 * _ysize 3 + 1) - 1) (1 / (1 * 1))%Qc)
  /\ m !! offset 3 (_ysize 3) 0 1 1
    = Some (mk_hi (Z.of_nat (0 * _ysize 3 + 1)) (1 - 2 * (1 / (1 * 1)))%Qc)
  /\ m !! offset 3 (_ysize 3) 0 1 2
    = Some (mk_hi (Z.of_nat (0 * _ysize 3 + 1) + 1) (1 / (1 * 1))%Qc).
Proof.
  apply (diffusion_only_interior_weights 1 p3 3 3 1 zeroed 0 1).
  - reflexivity.
  - vm_compute. lia.
  - vm_compute. lia.
Defined.

(** X5, witness: a mesh of 3 columns and 2 rows, full variant. *)
Lemma two_row_mesh_all_zero_witness :
  mk_hi 0 0%Qc = mk_hi 0 0%Qc.
Proof.
  apply (two_row_mesh_all_zero 1 p3 3 2 full 1 (replicate 18 (mk_hi 7 1%Qc))
                               4 (mk_hi 0 0%Qc)).
  - reflexivity.
  - vm_compute. lia.
  - vm_compute. reflexivity.
Defined.

(** X6, witness: pair 0 of row 1 in columns 0 and 2, [FPType::none]. *)
Lemma weights_same_in_every_column_witness :
  weight (mk_hi 1 1%Qc) = weight (mk_hi 7 1%Qc).
Proof.
  apply (weights_same_in_every_column 1 p3 3 3 none 1 zeroed 0 2 1 0
                                      (mk_hi 1 1%Qc) (mk_hi 7 1%Qc)).
  - reflexivity.
  - vm_compute. lia.
  - vm_compute. lia.
  - vm_compute. lia.
  - lia.
  - vm_compute. reflexivity.
  - vm_compute. reflexivity.
Defined.

(** X7, witness: the centre cell of column 0 of a 5 x 5 grid with
    [dp = 1] and p-coordinates [-2 .. 2], full variant with [e0 = 1]. *)
Lemma bulk_cell_inflow_witness :
  let st := construct 1 p5 5 5 full 1 (replicate 75 sentinel) in
  let Ny := _ysize 5 in
  let q := Z.of_nat (0 * Ny + 2) in
  let total := (1 + 1 + 1 / (2 * 1) * (p5 (2 + 1)%nat - p5 (2 - 1)%nat))%Qc in
  (forall i' j' k' h,
      (i' < _xsize 5)%nat -> (j' < Ny)%nat -> (k' < 3)%nat ->
      st !! offset 3 Ny i' j' k' = Some h -> index h = q ->
      i' = 0%nat /\ (j' + k' = 2 + 1)%nat)
  /\ (exists a b c,
         st !! offset 3 Ny 0 (2 + 1) 0 = Some a
         /\ st !! offset 3 Ny 0 2 1 = Some b
         /\ st !! offset 3 Ny 0 (2 - 1) 2 = Some c
         /\ index a = q /\ index b = q /\ index c = q
         /\ (weight a + weight b + weight c)%Qc = total)
  /\ (full <> diffusion_only -> (1 : Qc) <> 0%Qc ->
      (p5 (2 + 1)%nat - p5 (2 - 1)%nat)%Qc = (2 * 1)%Qc ->
      total = (1 + 2 * 1)%Qc).
Proof.
  apply (bulk_cell_inflow 1 p5 5 5 full 1 (replicate 75 sentinel) 0 2).
  - discriminate.
  - reflexivity.
  - vm_compute. lia.
  - lia.
  - vm_compute. lia.
Defined.

End StencilExtrasExamples.

(* ===================================================================== *)
(** ** main(): how a run ends *)
(* ===================================================================== *)

Section Computations.
Import Main Observe.

Lemma bind_step {A B} (m : M A) (f : A -> M B) t a t1 :
  m t = Go a t1 -> bind m f t = f a t1.
Proof. intros H. unfold bind. now rewrite H. Qed.

Lemma bind_halt {A B} (m : M A) (f : A -> M B) t o :
  m t = Halt o -> bind m f t = Halt o.
Proof. intros H. unfold bind. now rewrite H. Qed.

Variable P : Call -> Prop.

Lemma emits_ret {A} (a : A) : emits P (ret a).
Proof.
  intros t. exists a, []. rewrite app_nil_r.
  split; [reflexivity | constructor].
Qed.

Lemma emits_call c : P c -> emits P (call c).
Proof.
  intros Hc t. exists tt, [c]. split; [reflexivity|].
  constructor; [exact Hc | constructor].
Qed.

Lemma emits_bind {A B} (m : M A) (f : A -> M B) :
  emits P m -> (forall a, emits P (f a)) -> emits P (bind m f).
Proof.
  intros Hm Hf t. destruct (Hm t) as (a & cs & Hmt & Hcs).
  destruct (Hf a (t ++ cs)) as (b & cs' & Hft & Hcs').
  exists b, (cs ++ cs'). unfold bind. rewrite Hmt, Hft, app_assoc.
  split; [reflexivity | apply Forall_app; split; assumption].
Qed.

Lemma emits_when b m : emits P m -> emits P (when b m).
Proof. intros Hm. destruct b; [exact Hm | apply emits_ret]. Qed.

Lemma emits_if {A} (b : bool) (m1 m2 : M A) :
  emits P m1 -> emits P m2 -> emits P (if b then m1 else m2).
Proof. now destruct b. Qed.

Lemma ews_ret {A} (a : A) : exits_with_success (ret a).
Proof. intros t code t' H. discriminate H. Qed.

Lemma ews_call c : exits_with_success (call c).
Proof. intros t code t' H. discriminate H. Qed.

Lemma ews_calls cs : exits_with_success (calls cs).
Proof. intros t code t' H. discriminate H. Qed.

Lemma ews_exit {A} : exits_with_success (@exit A EXIT_SUCCESS).
Proof. intros t code t' H. injection H as <- _. reflexivity. Qed.

Lemma ews_undefined {A} : exits_with_success (@undefined A).
Proof. intros t code t' H. discriminate H. Qed.

Lemma ews_bind {A B} (m : M A) (f : A -> M B) :
  exits_with_success m -> (forall a, exits_with_success (f a)) ->
  exits_with_success (bind m f).
Proof.
  intros Hm Hf t code t' H. unfold bind in H.
  destruct (m t) as [a t1|o] eqn:E.
  - exact (Hf a t1 code t' H).
  - apply (Hm t code t'). rewrite E. injection H as ->. reflexivity.
Qed.

Lemma ews_when b m : exits_with_success m -> exits_with_success (when b m).
Proof. intros Hm. destruct b; [exact Hm | apply ews_ret]. Qed.

Lemma ews_if {A} (b : bool) (m1 m2 : M A) :
  exits_with_success m1 -> exits_with_success m2 ->
  exits_with_success (if b then m1 else m2).
Proof. now destruct b. Qed.

Lemma ews_repeat n m :
  exits_with_success m -> exits_with_success (repeat_M n m).
Proof.
  intros Hm. induction n as [|n IH]; cbn [repeat_M].
  - apply ews_ret.
  - apply ews_bind; [exact Hm | intros _; exact IH].
Qed.

End Computations.

Ltac solve_emits :=
  repeat first
    [ apply emits_bind; [|intros ?]
    | apply emits_when
    | apply emits_if
    | apply emits_ret
    | apply emits_call; reflexivity ].

Ltac solve_ews :=
  repeat first
    [ apply ews_bind; [|intros ?]
    | apply ews_when
    | apply ews_if
    | apply ews_repeat
    | apply ews_ret
    | apply ews_exit
    | apply ews_undefined
    | apply ews_calls
    | apply ews_call ].

Section ExitStatus.
Import Main Observe.
Local Open Scope string_scope.

Variables to_float std_sqrt : Qc -> Qc.
Variable physcons_c : Qc.
Variable opts : ProgramOptions.
Variable env : Environment.

Local Abbreviation main_ := (main to_float std_sqrt physcons_c opts env).

Lemma ews_main_loop fuel o i nr k :
  exits_with_success (main_loop to_float opts env fuel o i nr k).
Proof.
  revert i nr k. induction fuel as [|fuel IH]; intros i nr k; cbn [main_loop].
  - intros t code t' H. discriminate H.
  - apply ews_if; [|apply ews_ret].
    apply ews_bind; [apply ews_calls | intros _; apply IH].
Qed.

Lemma ews_after_parsing fuel :
  exits_with_success
    (started_message opts env ;;
     let* active := opencl_setup opts env in
     shielding_messages opts ;;
     verbose_messages opts ;;
     make_mesh1 opts env ;;
     make_psv env ;;
     particles_message opts ;;
     ret active) ->
  parse env <> parse_throws ->
  exits_with_success (main_body to_float std_sqrt physcons_c opts env fuel).
Proof.
  intros Hrest Hp. unfold main_body, setup, before_impedance.
  apply ews_bind; [|intros o].
  - apply ews_bind; [|intros active].
    + apply ews_bind; [|intros _; exact Hrest].
      unfold parse_options. destruct (parse env); solve_ews. contradiction.
    + unfold make_impedance, make_rotation, make_fpm, make_wkm,
        load_tracking, make_plots.
      solve_ews.
  - unfold haissinski, haissinski_turn, prepare_output, first_status,
      finish, save_final.
    apply ews_bind; [|intros _].
    { apply ews_bind; [|intros _; solve_ews].
      apply ews_repeat. destruct (wkm o); solve_ews. }
    apply ews_bind; [solve_ews | intros _].
    apply ews_bind; [solve_ews | intros _].
    apply ews_bind; [apply ews_main_loop | intros _].
    solve_ews.
Qed.

(** X8.  [main] returns [EXIT_FAILURE] exactly when parsing the options
    throws an exception, and then it has only written "error: " to
    [std::cerr]; whatever else ends a run (a "Will now quit." exit, the
    listing of the OpenCL devices, the end of the simulation), the exit
    status is never [EXIT_FAILURE]. *)
Theorem failure_only_from_parsing (fuel : nat) :
  ((exists t, main to_float std_sqrt physcons_c opts env fuel
              = Returned EXIT_FAILURE t)
   <-> parse env = parse_throws)
  /\ (main to_float std_sqrt physcons_c opts env fuel
      = Returned EXIT_FAILURE [cerr "error: "]
      <-> parse env = parse_throws).
Proof.
  assert (parse env = parse_throws ->
          main_ fuel = Returned EXIT_FAILURE [cerr "error: "]) as Hthrows.
  { intros Hp. unfold main, main_body, setup, before_impedance,
      parse_options, bind. rewrite Hp. reflexivity. }
  assert (forall t, main_ fuel = Returned EXIT_FAILURE t ->
                    parse env = parse_throws) as Honly.
  { intros t H.
    destruct (parse env) eqn:Hp; [exfalso | exfalso | reflexivity].
    all: assert (exits_with_success
                   (main_body to_float std_sqrt physcons_c opts env fuel))
      as Hews
        by (apply ews_after_parsing;
            [ unfold started_message, opencl_setup, shielding_messages,
                verbose_messages, make_mesh1, make_psv, particles_message;
              solve_ews
            | rewrite Hp; discriminate ]).
    all: unfold main in H.
    all: destruct (main_body to_float std_sqrt physcons_c opts env fuel [])
      as [u t1|out] eqn:Hb; [discriminate H|].
    all: subst out; specialize (Hews [] EXIT_FAILURE t Hb); discriminate Hews. }
  split; split.
  - intros [t H]. exact (Honly t H).
  - intros Hp. eexists. exact (Hthrows Hp).
  - apply Honly.
  - exact Hthrows.
Qed.

(** X9.  In a build with OpenCL, a negative device number makes [main]
    list the OpenCL devices and return [EXIT_SUCCESS] at once: nothing is
    printed (not even the start message), no mesh or map is built and
    nothing is simulated. *)
Theorem negative_device_lists_devices (fuel : nat) :
  INOVESA_USE_CL env = true ->
  parse env = parse_ok ->
  getCLDevice opts < 0 ->
  main to_float std_sqrt physcons_c opts env fuel
  = Returned EXIT_SUCCESS [listCLDevices].
Proof.
  intros Hcl Hp Hdev.
  unfold main, main_body, setup, before_impedance, parse_options,
    started_message, opencl_setup, bind.
  rewrite Hp, Hcl.
  destruct (Z.leb_spec 0 (getCLDevice opts)); [lia|].
  destruct (Z.ltb_spec (getCLDevice opts) 0); [|lia].
  reflexivity.
Qed.

End ExitStatus.

(* ===================================================================== *)
(** ** main(): the initial distribution *)
(* ===================================================================== *)

Section StartDistribution.
Import Main Observe.
Local Open Scope string_scope.

Variables to_float std_sqrt : Qc -> Qc.
Variable physcons_c : Qc.
Variable opts : ProgramOptions.
Variable env : Environment.

Local Abbreviation main_ := (main to_float std_sqrt physcons_c opts env).

Lemma opencl_setup_emits :
  INOVESA_USE_CL env = false \/ 0 <= getCLDevice opts ->
  emits quiet (opencl_setup opts env).
Proof.
  intros H. unfold opencl_setup.
  destruct (INOVESA_USE_CL env); [|apply emits_ret].
  destruct (Z.ltb_spec (getCLDevice opts) 0);
    [destruct H; [discriminate | lia]|].
  solve_emits.
Qed.

(** When the options parse and the devices are not merely listed, the code
    before the initial distribution only prints. *)
Lemma before_mesh1 t :
  parse env = parse_ok ->
  INOVESA_USE_CL env = false \/ 0 <= getCLDevice opts ->
  exists active cs,
    Forall quiet cs
    /\ before_impedance opts env t
       = (make_mesh1 opts env ;;
          make_psv env ;;
          particles_message opts ;;
          ret active) (t ++ cs)%list.
Proof.
  intros Hp Hcl. unfold before_impedance.
  assert (parse_options env t = Go tt t) as H0
      by (unfold parse_options; now rewrite Hp).
  rewrite (bind_step _ _ _ _ _ H0).
  assert (emits quiet (started_message opts env)) as H1
      by (unfold started_message; solve_emits).
  destruct (H1 t) as ([] & cs1 & E1 & Q1).
  rewrite (bind_step _ _ _ _ _ E1).
  destruct (opencl_setup_emits Hcl (t ++ cs1)%list) as (active & cs2 & E2 & Q2).
  rewrite (bind_step _ _ _ _ _ E2).
  assert (emits quiet (shielding_messages opts)) as H3
      by (unfold shielding_messages; solve_emits).
  destruct (H3 ((t ++ cs1) ++ cs2)%list) as ([] & cs3 & E3 & Q3).
  rewrite (bind_step _ _ _ _ _ E3).
  assert (emits quiet (verbose_messages opts)) as H4
      by (unfold verbose_messages; solve_emits).
  destruct (H4 (((t ++ cs1) ++ cs2) ++ cs3)%list) as ([] & cs4 & E4 & Q4).
  rewrite (bind_step _ _ _ _ _ E4).
  exists active, (cs1 ++ cs2 ++ cs3 ++ cs4)%list. split.
  - repeat (apply Forall_app; split); assumption.
  - now rewrite !app_assoc.
Qed.

Lemma main_halts_before_impedance fuel t0 code t :
  before_impedance opts env [] = Halt (Returned code t) ->
  t0 = t ->
  main_ fuel = Returned code t0.
Proof.
  intros H ->. unfold main, main_body, setup.
  rewrite (bind_halt _ _ _ _ (bind_halt _ _ _ _ H)). reflexivity.
Qed.

(** X10.  A start distribution file (a name of more than 4 characters)
    that is none of .png (in a build with PNG), .h5 / .hdf5 (in a build
    with HDF5) or .txt makes [main] print "Unknown format of input file.
    Will now quit." and return [EXIT_SUCCESS]; up to then only messages
    were issued, and nothing follows the message. *)
Theorem unknown_start_format_quits (fuel : nat) :
  parse env = parse_ok ->
  INOVESA_USE_CL env = false \/ 0 <= getCLDevice opts ->
  (4 < String.length (getStartDistFile opts))%nat ->
  INOVESA_USE_PNG env && isOfFileType ".png" (getStartDistFile opts) = false ->
  INOVESA_USE_HDF5 env
  && (isOfFileType ".h5" (getStartDistFile opts)
      || isOfFileType ".hdf5" (getStartDistFile opts)) = false ->
  isOfFileType ".txt" (getStartDistFile opts) = false ->
  exists t0,
    main to_float std_sqrt physcons_c opts env fuel
    = Returned EXIT_SUCCESS
        (t0 ++ [printText ("Reading in initial distribution from: " ++ dq
                           ++ getStartDistFile opts ++ dq);
                printText "Unknown format of input file. Will now quit."])%list
    /\ Forall quiet t0.
Proof.
  intros Hp Hcl Hlen Hpng Hh5 Htxt.
  destruct (before_mesh1 [] Hp Hcl) as (active & cs & Hq & Hb).
  exists cs. split; [|exact Hq].
  eapply main_halts_before_impedance; [rewrite Hb|reflexivity].
  apply bind_halt. unfold make_mesh1, startdistfile.
  destruct (Nat.leb_spec (String.length (getStartDistFile opts)) 4); [lia|].
  rewrite Hpng, Hh5, Htxt. unfold bind, call, exit. cbn [app].
  now rewrite <- app_assoc.
Qed.

(** X11.  In a build with HDF5, a start distribution read from an .h5 or
    .hdf5 file whose number of mesh cells differs from the configured grid
    size makes [main] report "<file> does not match set GridSize." on
    [std::cerr] and return, with [EXIT_SUCCESS], before the mesh is
    transferred to the OpenCL device and before anything is simulated. *)
Theorem grid_size_mismatch_quits (fuel : nat) :
  parse env = parse_ok ->
  INOVESA_USE_CL env = false \/ 0 <= getCLDevice opts ->
  (4 < String.length (getStartDistFile opts))%nat ->
  INOVESA_USE_PNG env && isOfFileType ".png" (getStartDistFile opts) = false ->
  INOVESA_USE_HDF5 env
  && (isOfFileType ".h5" (getStartDistFile opts)
      || isOfFileType ".hdf5" (getStartDistFile opts)) = true ->
  getGridSize opts <> startdist_nMeshCells env ->
  exists t0,
    main to_float std_sqrt physcons_c opts env fuel
    = Returned EXIT_SUCCESS
        (t0 ++ [printText ("Reading in initial distribution from: " ++ dq
                           ++ getStartDistFile opts ++ dq);
                cerr (getStartDistFile opts
                      ++ " does not match set GridSize.")])%list
    /\ Forall quiet t0.
Proof.
  intros Hp Hcl Hlen Hpng Hh5 Hsize.
  destruct (before_mesh1 [] Hp Hcl) as (active & cs & Hq & Hb).
  exists cs. split; [|exact Hq].
  eapply main_halts_before_impedance; [rewrite Hb|reflexivity].
  apply bind_halt. unfold make_mesh1, startdistfile, ps_size.
  destruct (Nat.leb_spec (String.length (getStartDistFile opts)) 4); [lia|].
  rewrite Hpng, Hh5.
  destruct (Z.eqb_spec (getGridSize opts) (startdist_nMeshCells env));
    [contradiction|].
  unfold bind, call, exit. cbn [app negb].
  now rewrite <- app_assoc.
Qed.

End StartDistribution.

(* ===================================================================== *)
(** ** main(): what the set-up code hands to the loop *)
(* ===================================================================== *)

Section SetupInvariants.
Import Main Observe.

Variables to_float std_sqrt : Qc -> Qc.
Variable physcons_c : Qc.
Variable opts : ProgramOptions.
Variable env : Environment.

Local Abbreviation setup_ := (setup to_float std_sqrt physcons_c opts env).
Local Abbreviation e1_ := (e1 to_float std_sqrt physcons_c opts).
Local Abbreviation t_d_ := (t_d physcons_c opts).
Local Abbreviation fs_ := (fs to_float std_sqrt physcons_c opts).

Lemma opencl_setup_Go t a t' :
  opencl_setup opts env t = Go a t' ->
  a = INOVESA_USE_CL env && (0 <? getCLDevice opts)
      && negb (prepareCLEnvironment_throws env).
Proof.
  unfold opencl_setup.
  destruct (INOVESA_USE_CL env); [|cbn; intros H; now injection H as <- _].
  destruct (Z.ltb_spec (getCLDevice opts) 0) as [_|_]; [discriminate|].
  destruct (0 <? getCLDevice opts);
    [destruct (prepareCLEnvironment_throws env)|];
    cbn; intros H; now injection H as <- _.
Qed.

Lemma before_impedance_Go t a t' :
  before_impedance opts env t = Go a t' ->
  a = INOVESA_USE_CL env && (0 <? getCLDevice opts)
      && negb (prepareCLEnvironment_throws env).
Proof.
  unfold before_impedance. intros H.
  apply bind_Go in H as (_u1 & t1 & _ & H).
  apply bind_Go in H as (_u2 & t2 & _ & H).
  apply bind_Go in H as (active & t3 & Ha & H).
  apply bind_Go in H as (_u4 & t4 & _ & H).
  apply bind_Go in H as (_u5 & t5 & _ & H).
  apply bind_Go in H as (_u6 & t6 & _ & H).
  apply bind_Go in H as (_u7 & t7 & _ & H).
  apply bind_Go in H as (_u8 & t8 & _ & H).
  unfold ret in H. injection H as <- _.
  exact (opencl_setup_Go _ _ _ Ha).
Qed.

Lemma make_rotation_value t rm t' :
  make_rotation opts t = Go rm t' ->
  rm = if (rotationtype opts =? 0)%Z
       then (new_SourceMap class_RotationMap mesh1 mesh3, None)
       else if (rotationtype opts =? 1)%Z
            then (new_SourceMap class_RotationMap mesh2 mesh3, None)
            else (new_SourceMap class_RFKickMap mesh2 mesh1,
                  Some (new_SourceMap class_DriftMap mesh1 mesh3)).
Proof.
  unfold make_rotation.
  destruct (rotationtype opts =? 0)%Z;
    [|destruct (rotationtype opts =? 1)%Z];
    cbn; intros H; now injection H as <- _.
Qed.

Lemma make_fpm_value t f t' :
  make_fpm to_float std_sqrt physcons_c opts t = Go f t' ->
  f = if ltb 0 e1_
      then new_SourceMap class_FokkerPlanckMap mesh3 mesh1
      else new_SourceMap class_Identity mesh3 mesh1.
Proof.
  unfold make_fpm. destruct (ltb 0 e1_);
    cbn; intros H; now injection H as <- _.
Qed.

(** The objects in terms of the options and the environment. *)
Lemma setup_inv t o t' :
  setup_ t = Go o t' ->
  (rm1 o, rm2 o)
  = (if (rotationtype opts =? 0)%Z
     then (new_SourceMap class_RotationMap mesh1 mesh3, None)
     else if (rotationtype opts =? 1)%Z
          then (new_SourceMap class_RotationMap mesh2 mesh3, None)
          else (new_SourceMap class_RFKickMap mesh2 mesh1,
                Some (new_SourceMap class_DriftMap mesh1 mesh3)))
  /\ fpm o = (if ltb 0 e1_
              then new_SourceMap class_FokkerPlanckMap mesh3 mesh1
              else new_SourceMap class_Identity mesh3 mesh1)
  /\ wm o = make_wm (wkm o)
  /\ OCLH_active o = INOVESA_USE_CL env && (0 <? getCLDevice opts)
                     && negb (prepareCLEnvironment_throws env)
  /\ wpv o = display env && bool_decide (is_Some (wkm o)) && wpv_made env
             && history_made env
  /\ wkm o = (if (4 <? String.length (wakefile opts))%nat
              then Some (new_SourceMap class_WakeFunctionMap mesh1 mesh2)
              else if negb (Qc_eq_bool (gap opts) 0)
                   then Some (new_SourceMap class_WakePotentialMap mesh1 mesh2)
                   else None).
Proof.
  intros H.
  pose proof (setup_Go _ _ _ _ _ _ _ _ H) as (_ & Hwkm & _).
  revert H. unfold setup. intros H.
  apply bind_Go in H as (active & t1 & Ha & H).
  apply bind_Go in H as (_u & t2 & _ & H).
  apply bind_Go in H as (rm & t3 & Hrm & H).
  apply bind_Go in H as (f & t4 & Hf & H).
  apply bind_Go in H as (w & t5 & Hw & H).
  apply bind_Go in H as (_v & t6 & _ & H).
  apply bind_Go in H as (_w & t7 & _ & H).
  unfold ret in H. injection H as <- _. cbn.
  apply make_rotation_value in Hrm. apply make_fpm_value in Hf.
  apply before_impedance_Go in Ha.
  repeat split; try assumption.
  rewrite <- Hrm. now destruct rm.
Qed.

Lemma Qc_zero_lt_div (x : Qc) : (0 < x)%Qc -> (0 < 2 / x)%Qc.
Proof.
  intros Hx. unfold Qclt in *. unfold Qcdiv, Qcmult, Qcinv. cbn.
  rewrite !Qred_correct.
  apply Qmult_lt_0_compat; [reflexivity|].
  apply Qinv_lt_0_compat. exact Hx.
Qed.

Lemma Qc_mult_pos (x y : Qc) : (0 < x)%Qc -> (0 < y)%Qc -> (0 < x * y)%Qc.
Proof.
  intros Hx Hy. unfold Qclt in *. unfold Qcmult. cbn.
  rewrite !Qred_correct. now apply Qmult_lt_0_compat.
Qed.


Lemma turn_applies_maps o : turn_applies o = map apply (turn_maps o).
Proof. unfold turn_applies, turn_maps. now destruct (rm2 o). Qed.

(** X13.  For a rotation type other than 0 (1: rotation map; 2 and above:
    RF kick and drift) the maps applied in one turn form a pipeline that
    starts and ends in mesh1: the wake stage reads mesh1, every further map
    reads the mesh written by the map before it, and the Fokker-Planck
    stage writes mesh1. *)
Theorem maps_form_pipeline (t : list Call) (o : Objects) (t' : list Call) :
  setup to_float std_sqrt physcons_c opts env t = Go o t' ->
  0 < getRotationType opts < 256 ->
  chain mesh1 (turn_maps o) = Some mesh1
  /\ turn_applies o = map apply (turn_maps o).
Proof.
  intros H Hrt. split; [|apply turn_applies_maps].
  apply setup_inv in H as (Hrm & Hf & Hwm & _ & _ & Hwkm).
  unfold turn_maps. rewrite Hwm, Hf, Hwkm. unfold rotationtype in Hrm.
  destruct (Z.eqb_spec (getRotationType opts) 0); [lia|].
  destruct (getRotationType opts =? 1)%Z; injection Hrm as -> ->;
    destruct (4 <? String.length (wakefile opts))%nat,
      (negb (Qc_eq_bool (gap opts) 0)), (ltb 0 e1_); reflexivity.
Qed.

(** X14.  For rotation type 0 the rotation map reads mesh1, not mesh2:
    the wake stage writes mesh2, no map applied in the turn reads mesh2,
    and so the maps do not form a pipeline; what the wake stage computed
    does not reach the next turn. *)
Theorem rotation_type_0_bypasses_wake (t : list Call) (o : Objects)
        (t' : list Call) :
  setup to_float std_sqrt physcons_c opts env t = Go o t' ->
  getRotationType opts = 0 ->
  rm1 o = new_SourceMap class_RotationMap mesh1 mesh3
  /\ rm2 o = None
  /\ map_out (wm o) = mesh2
  /\ Forall (fun m => map_in m <> mesh2) (turn_maps o)
  /\ chain mesh1 (turn_maps o) = None.
Proof.
  intros H Hrt.
  apply setup_inv in H as (Hrm & Hf & Hwm & _ & _ & Hwkm).
  unfold rotationtype in Hrm. rewrite Hrt in Hrm. cbn in Hrm.
  injection Hrm as Hrm1 Hrm2.
  unfold turn_maps. rewrite Hwm, Hf, Hwkm, Hrm1, Hrm2.
  destruct (4 <? String.length (wakefile opts))%nat,
    (negb (Qc_eq_bool (gap opts) 0)), (ltb 0 e1_); cbn;
    repeat split; repeat constructor; discriminate.
Qed.

Lemma loop_body_no_wpv o i nr :
  wpv o = false ->
  Forall (fun c => c <> wpv_updateLine) (loop_body opts env o i nr).1.
Proof.
  intros Hw. unfold loop_body, output_block. cbn [fst]. rewrite Hw.
  destruct (renormalize_due opts i), (rm2 o); cbn [maybe].
  all: repeat first [ apply Forall_app; split
                    | apply Forall_maybe
                    | apply List.Forall_cons
                    | apply List.Forall_nil ]; discriminate.
Qed.

(** X15.  The wake plot exists only together with a wake-kick map: when
    [wpv] is not [nullptr] neither is [wkm], so the call
    [wpv->updateLine(.., wkm->getForce())] of the output block never
    dereferences a null [wkm]. *)
Theorem wake_plot_needs_wake_map (t : list Call) (o : Objects)
        (t' : list Call) :
  setup to_float std_sqrt physcons_c opts env t = Go o t' ->
  (wpv o = true -> is_Some (wkm o))
  /\ (forall i outstepnr,
        In wpv_updateLine (loop_body opts env o i outstepnr).1 ->
        is_Some (wkm o)).
Proof.
  intros H. apply setup_inv in H as (_ & _ & _ & _ & Hwpv & _).
  assert (wpv o = true -> is_Some (wkm o)) as Hw.
  { rewrite Hwpv. intros Ht.
    apply andb_true_iff in Ht as [Ht _].
    apply andb_true_iff in Ht as [Ht _].
    apply andb_true_iff in Ht as [_ Ht].
    now apply bool_decide_eq_true in Ht. }
  split; [exact Hw|].
  intros i nr Hin. apply Hw.
  destruct (wpv o) eqn:E; [reflexivity|].
  pose proof (loop_body_no_wpv o i nr E) as Hno.
  rewrite List.Forall_forall in Hno. now specialize (Hno _ Hin).
Qed.

Lemma loop_body_no_sync o i nr :
  OCLH_active o = false ->
  Forall (fun c => is_sync c = false) (loop_body opts env o i nr).1.
Proof.
  intros Ha. unfold loop_body, output_block. cbn [fst].
  rewrite Ha, andb_false_r.
  destruct (renormalize_due opts i), (rm2 o); cbn [maybe].
  all: repeat first [ apply Forall_app; split
                    | apply Forall_maybe
                    | apply List.Forall_cons
                    | apply List.Forall_nil ]; reflexivity.
Qed.

(** X16.  OpenCL is active in the loop exactly when the build has OpenCL,
    the device number is positive and the OpenCL environment could be
    prepared.  When preparing it throws, the run falls back to the
    sequential version: no turn of the loop, however many are run,
    transfers data between host and device. *)
Theorem opencl_fallback (t : list Call) (o : Objects) (t' : list Call) :
  setup to_float std_sqrt physcons_c opts env t = Go o t' ->
  OCLH_active o = INOVESA_USE_CL env && (0 <? getCLDevice opts)
                  && negb (prepareCLEnvironment_throws env)
  /\ (prepareCLEnvironment_throws env = true ->
      forall k i outstepnr,
        Forall (fun c => is_sync c = false)
               (turns_trace opts env k o i outstepnr)).
Proof.
  intros H. apply setup_inv in H as (_ & _ & _ & Ha & _).
  split; [exact Ha|]. intros Hthrows.
  assert (OCLH_active o = false) as Hoff
      by (rewrite Ha, Hthrows; cbn; apply andb_false_r).
  intros k. induction k as [|k IH]; intros i nr; cbn [turns_trace].
  - constructor.
  - apply Forall_app. split; [now apply loop_body_no_sync | apply IH].
Qed.

End SetupInvariants.

(* ===================================================================== *)
(** ** main(): many turns of the loop *)
(* ===================================================================== *)

Section ManyTurns.
Import Main Observe.

Variable to_float : Qc -> Qc.
Variable opts : ProgramOptions.
Variable env : Environment.

Local Abbreviation turns_trace_ := (turns_trace opts env).
Local Abbreviation loop_body_ := (loop_body opts env).
Local Abbreviation outstepnr_after_ := (outstepnr_after opts env).

Lemma loop_body_quiet_output o i nr :
  output_due opts i = false ->
  Forall (fun c => is_output c = false) (loop_body_ o i nr).1
  /\ (loop_body_ o i nr).2 = nr.
Proof.
  intros Hd. unfold loop_body. rewrite Hd. cbn [fst snd maybe]. split; [|reflexivity].
  destruct (renormalize_due opts i), (rm2 o).
  all: repeat first [ apply Forall_app; split
                    | apply Forall_maybe
                    | apply List.Forall_cons
                    | apply List.Forall_nil ]; reflexivity.
Qed.

(** X17.  With an output stride of 0 the loop never computes [i%outstep]
    and never enters the output block: no turn, however many are run,
    prints a status line, evaluates the moments for it, saves a snapshot or
    draws, and the output counter [outstepnr] keeps its value. *)
Theorem no_output_without_stride (o : Objects) (k : nat) (i outstepnr : Z) :
  getOutSteps opts = 0 ->
  Forall (fun c => is_output c = false) (turns_trace_ k o i outstepnr)
  /\ outstepnr_after_ o k i outstepnr = outstepnr.
Proof.
  intros Hs.
  assert (forall j, output_due opts j = false) as Hd
      by (intros j; unfold output_due, outstep; now rewrite Hs).
  revert i outstepnr. induction k as [|k IH]; intros i nr;
    cbn [turns_trace outstepnr_after].
  - split; [constructor | reflexivity].
  - destruct (loop_body_quiet_output o i nr (Hd i)) as [Hq Hnr].
    rewrite Hnr. destruct (IH (u32 (i + 1)) nr) as [IH1 IH2].
    split; [apply Forall_app; split; assumption | exact IH2].
Qed.

Lemma cdiv_step (s i : Z) :
  0 < s -> 0 <= i ->
  cdiv (i + 1) s - cdiv i s = if (i mod s =? 0)%Z then 1 else 0.
Proof.
  intros Hs Hi. unfold cdiv.
  pose proof (Z.div_mod i s ltac:(lia)) as Hdm.
  pose proof (Z.mod_pos_bound i s Hs) as Hr.
  assert ((i + 1 + s - 1) / s = i / s + 1) as ->.
  { symmetry. apply (Z.div_unique _ _ _ (i mod s)); lia. }
  destruct (Z.eqb_spec (i mod s) 0) as [E|E].
  - assert ((i + s - 1) / s = i / s) as ->; [|lia].
    symmetry. apply (Z.div_unique _ _ _ (s - 1)); lia.
  - assert ((i + s - 1) / s = i / s + 1) as ->; [|lia].
    symmetry. apply (Z.div_unique _ _ _ (i mod s - 1)); lia.
Qed.

Lemma cdiv_mono (s a b : Z) : 0 < s -> a <= b -> cdiv a s <= cdiv b s.
Proof. intros Hs Hab. unfold cdiv. apply Z.div_le_mono; lia. Qed.

Lemma cdiv_0 (s : Z) : 0 < s -> cdiv 0 s = 0.
Proof. intros Hs. unfold cdiv. apply Z.div_small. lia. Qed.

Lemma loop_body_status o i nr :
  length (List.filter is_status (loop_body_ o i nr).1)
  = if output_due opts i then 1%nat else 0%nat.
Proof.
  unfold loop_body, output_block. cbn [fst].
  rewrite !List.filter_app, !filter_maybe, !List.filter_app, !filter_maybe.
  destruct (output_due opts i), (renormalize_due opts i), (rm2 o),
    (bool_decide (is_Some (wkm o))), (INOVESA_USE_CL env && OCLH_active o),
    (hdf_file opts env), (display env), (psv env), (bpv o), (wpv o),
    (history o); reflexivity.
Qed.

Lemma outstepnr_count (o : Objects) (k : nat) (i nr : Z) :
  0 < getOutSteps opts ->
  0 <= i -> i + Z.of_nat k < 4294967296 ->
  0 <= nr -> nr + Z.of_nat k < 4294967296 ->
  outstepnr_after_ o k i nr
  = nr + cdiv (i + Z.of_nat k) (getOutSteps opts) - cdiv i (getOutSteps opts)
  /\ Z.of_nat (length (List.filter is_status (turns_trace_ k o i nr)))
     = cdiv (i + Z.of_nat k) (getOutSteps opts) - cdiv i (getOutSteps opts).
Proof.
  intros Hs. revert i nr. induction k as [|k IH]; intros i nr Hi Hik Hnr Hnrk;
    cbn [turns_trace outstepnr_after].
  - rewrite Z.add_0_r. cbn. split; lia.
  - pose proof (cdiv_step _ i Hs Hi) as Hstep.
    pose proof (cdiv_mono (getOutSteps opts) (i + 1)
                          (i + 1 + Z.of_nat k) Hs ltac:(lia)) as Hmono.
    rewrite List.filter_app, length_app, loop_body_status.
    assert ((loop_body_ o i nr).2
            = if output_due opts i then nr + 1 else nr) as Hnr'.
    { unfold loop_body. cbn [snd]. destruct (output_due opts i);
        [apply u32_small; lia | reflexivity]. }
    rewrite Hnr'.
    assert (output_due opts i = (i mod getOutSteps opts =? 0)%Z) as Hdue.
    { unfold output_due, outstep.
      destruct (Z.ltb_spec 0 (getOutSteps opts)); [reflexivity | lia]. }
    rewrite Hdue in *. rewrite (u32_small (i + 1)) by lia.
    replace (i + Z.of_nat (S k)) with (i + 1 + Z.of_nat k) by lia.
    destruct (i mod getOutSteps opts =? 0)%Z.
    + destruct (IH (i + 1) (nr + 1)) as [IH1 IH2]; lia.
    + destruct (IH (i + 1) nr) as [IH1 IH2]; lia.
Qed.

(** X18.  With an output stride [outstep > 0], the first [k] turns of the
    loop (step indices [0 .. k-1]) issue the call for the status line
    exactly [ceil(k/outstep)] times, and this is also the value of the
    output counter [outstepnr] after them: output happens in the turns
    whose index is a multiple of [outstep], the first of them being
    turn 0. *)
Theorem output_every_outstep_turns (o : Objects) (k : nat) :
  0 < getOutSteps opts ->
  Z.of_nat k < 4294967296 ->
  Z.of_nat (length (List.filter is_status (turns_trace_ k o 0 0)))
  = cdiv (Z.of_nat k) (getOutSteps opts)
  /\ outstepnr_after_ o k 0 0 = cdiv (Z.of_nat k) (getOutSteps opts)
  /\ (forall i, output_due opts i = true <-> (getOutSteps opts | i)).
Proof.
  intros Hs Hk.
  destruct (outstepnr_count o k 0 0 Hs) as [H1 H2]; try lia.
  change (0 + Z.of_nat k) with (Z.of_nat k) in H1, H2.
  rewrite (cdiv_0 _ Hs) in H1, H2.
  split; [lia|]. split; [lia|].
  intros i. unfold output_due, outstep.
  rewrite andb_true_iff, Z.ltb_lt, Z.eqb_eq.
  split.
  - intros [_ Hd]. apply Z.mod_divide; [lia | exact Hd].
  - intros Hd. split; [exact Hs|]. apply Z.mod_divide; [lia | exact Hd].
Qed.

Lemma filter_stage_turns (o : Objects) (k : nat) (i nr : Z) :
  List.filter is_stage (turns_trace_ k o i nr)
  = concat (replicate k (turn_stages o)).
Proof.
  revert i nr. induction k as [|k IH]; intros i nr; [reflexivity|].
  cbn [turns_trace replicate concat].
  rewrite List.filter_app, IH, loop_body_stages. f_equal.
  unfold turn_stages, turn_applies.
  destruct (wkm o), (rm2 o); reflexivity.
Qed.

(** X22.  Every turn of the loop runs the same stages in the same order,
    whatever the step index and the output counter: the stages of [k]
    consecutive turns are [k] copies of the stages of one turn.  With a
    wake-kick map, [wkm->update()] is called exactly once per turn. *)
Theorem stages_repeat_every_turn (o : Objects) (k : nat) (i outstepnr : Z) :
  List.filter is_stage (turns_trace_ k o i outstepnr)
  = concat (replicate k (turn_stages o))
  /\ length (List.filter is_wkm_update (turns_trace_ k o i outstepnr))
     = (if bool_decide (is_Some (wkm o)) then k else 0%nat).
Proof.
  split; [apply filter_stage_turns|].
  revert i outstepnr. induction k as [|k IH]; intros i nr.
  - now destruct (bool_decide (is_Some (wkm o))).
  - cbn [turns_trace].
    rewrite List.filter_app, length_app, IH, loop_body_wkm_update.
    destruct (bool_decide (is_Some (wkm o))); reflexivity.
Qed.

Lemma filter_apply_stage (l : list Call) :
  List.filter is_apply l = List.filter is_apply (List.filter is_stage l).
Proof.
  induction l as [|c l IH]; [reflexivity|].
  destruct c; cbn; rewrite <- ?IH; reflexivity.
Qed.

Lemma filter_apply_concat (o : Objects) (k : nat) :
  List.filter is_apply (concat (replicate k (turn_stages o)))
  = concat (replicate k (turn_applies o)).
Proof.
  induction k as [|k IH]; [reflexivity|].
  cbn [replicate concat]. rewrite List.filter_app, IH. f_equal.
  unfold turn_stages, turn_applies. destruct (wkm o), (rm2 o); reflexivity.
Qed.

Lemma filter_apply_turns (o : Objects) (k : nat) (i nr : Z) :
  List.filter is_apply (turns_trace_ k o i nr)
  = concat (replicate k (turn_applies o)).
Proof.
  rewrite filter_apply_stage, filter_stage_turns. apply filter_apply_concat.
Qed.

(** X20.  The step index is an [unsigned int] and wraps around at [2^32]:
    when the loop test [i < steps*rotations] holds for every value an
    [unsigned int] can take, the loop never ends, whatever the number of
    turns allowed. *)
Theorem loop_never_ends (o : Objects) (fuel : nat) (i outstepnr : Z)
        (turns : nat) (t : list Call) :
  (forall j, 0 <= j < 4294967296 -> loop_test to_float opts j = true) ->
  0 <= i < 4294967296 ->
  exists t', main_loop to_float opts env fuel o i outstepnr turns t
             = Halt (OutOfFuel t').
Proof.
  intros Htest. revert i outstepnr turns t.
  induction fuel as [|fuel IH]; intros i nr turns t Hi; cbn [main_loop].
  - now exists t.
  - rewrite (Htest i Hi). unfold bind, calls.
    apply IH. unfold u32. apply Z.mod_pos_bound. lia.
Qed.

End ManyTurns.

(* ===================================================================== *)
(** ** main(): a whole run *)
(* ===================================================================== *)

Ltac solve_quiet_M :=
  repeat first
    [ apply quiet_bind; [|intros ?]
    | apply quiet_when
    | apply quiet_if
    | apply quiet_ret
    | apply quiet_exit_success
    | apply quiet_call; reflexivity ].

Section WholeRun.
Import Main Observe.
Local Open Scope string_scope.

Variables to_float std_sqrt : Qc -> Qc.
Variable physcons_c : Qc.
Variable opts : ProgramOptions.
Variable env : Environment.

Local Abbreviation main_ := (main to_float std_sqrt physcons_c opts env).
Local Abbreviation setup_ := (setup to_float std_sqrt physcons_c opts env).
Local Abbreviation no_apply := (fun c : Call => is_apply c = false).

Lemma setup_quiet : quiet_M env setup_.
Proof.
  unfold setup.
  apply quiet_bind; [apply quiet_before_impedance | intros active].
  unfold make_impedance, make_rotation, make_fpm, make_wkm, load_tracking,
    make_plots.
  solve_quiet_M.
Qed.

Lemma quiet_no_apply (l : list Call) : Forall quiet l -> Forall no_apply l.
Proof.
  intros H. eapply Forall_impl; [exact H|].
  intros c Hc. destruct c; try reflexivity. discriminate Hc.
Qed.

(** X19.  The draft of the Haissinski solver calls [wkm->update()] without
    testing [wkm]: with at least one Haissinski iteration configured, a
    vacuum-chamber gap of 0 and no wake file (so that no wake-kick map is
    built), [main] dereferences a null pointer right after the set-up,
    before the simulation starts. *)
Theorem haissinski_without_wake_map (o : Objects) (t0 : list Call)
        (fuel : nat) :
  setup to_float std_sqrt physcons_c opts env [] = Go o t0 ->
  gap opts = 0%Qc ->
  (String.length (getWakeFile opts) <= 4)%nat ->
  0 < getHaissinskiIterations opts ->
  main to_float std_sqrt physcons_c opts env fuel = Undefined t0.
Proof.
  intros H Hgap Hfile Hn.
  pose proof (setup_Go _ _ _ _ _ _ _ _ H) as (_ & Hwkm & _).
  assert (wkm o = None) as Hnone.
  { rewrite Hwkm. unfold wakefile.
    destruct (Nat.ltb_spec 4 (String.length (getWakeFile opts))); [lia|].
    rewrite Hgap. reflexivity. }
  unfold main, main_body. rewrite (bind_step _ _ _ _ _ H).
  unfold haissinski, haisi.
  destruct (Z.to_nat (getHaissinskiIterations opts)) as [|n] eqn:E; [lia|].
  cbn [repeat_M]. unfold haissinski_turn. rewrite Hnone. reflexivity.
Qed.

Lemma haissinski_skipped o :
  getHaissinskiIterations opts <= 0 ->
  emits no_apply (haissinski opts env o).
Proof.
  intros Hn. unfold haissinski, haisi.
  replace (Z.to_nat (getHaissinskiIterations opts)) with 0%nat by lia.
  cbn [repeat_M]. solve_emits.
Qed.

Lemma prepare_output_emits : emits no_apply (prepare_output opts env).
Proof. unfold prepare_output. solve_emits. Qed.

Lemma first_status_emits : emits no_apply first_status.
Proof. unfold first_status. solve_emits. Qed.

Lemma finish_returns o t :
  exists cs,
    finish opts env o t
    = Halt (Returned EXIT_SUCCESS ((t ++ cs) ++ [printText "Finished."])%list)
    /\ Forall no_apply cs.
Proof.
  unfold finish.
  assert (emits no_apply (save_final opts env o)) as H1
      by (unfold save_final; solve_emits).
  destruct (H1 t) as ([] & c1 & E1 & F1). rewrite (bind_step _ _ _ _ _ E1).
  assert (emits no_apply (when (png_out opts env) (call png_file_write)))
    as H2 by solve_emits.
  destruct (H2 (t ++ c1)%list) as ([] & c2 & E2 & F2).
  rewrite (bind_step _ _ _ _ _ E2).
  assert (emits no_apply (call (printText_fmt EmptyString))) as H3
      by solve_emits.
  destruct (H3 ((t ++ c1) ++ c2)%list) as ([] & c3 & E3 & F3).
  rewrite (bind_step _ _ _ _ _ E3).
  assert (emits no_apply (when (INOVESA_USE_CL env && OCLH_active o)
                               (call OCLH_queue_flush))) as H4
      by solve_emits.
  destruct (H4 (((t ++ c1) ++ c2) ++ c3)%list) as ([] & c4 & E4 & F4).
  rewrite (bind_step _ _ _ _ _ E4).
  exists (c1 ++ c2 ++ c3 ++ c4)%list. split.
  - unfold bind, call, exit. now rewrite !app_assoc.
  - repeat (apply Forall_app; split); assumption.
Qed.

(** Conversion to [float] is exact on integers up to [2^24]. *)
Hypothesis to_float_exact :
  forall z, 0 <= z <= 16777216 -> to_float (Qc_of_Z z) = Qc_of_Z z.


End WholeRun.

(* ===================================================================== *)
(** ** Runs of main() on further configurations *)
(* ===================================================================== *)

Section RunExamples.
Import Main Observe Examples MoreExamples.
Local Open Scope string_scope.

(** X9, witness: device number -1 in a build with OpenCL. *)
Lemma negative_device_lists_devices_witness :
  main exact sqrt_down c (with_CLDevice (-1) opts_nogap)
       (environment_cl false) 0
  = Returned EXIT_SUCCESS [listCLDevices].
Proof.
  apply (negative_device_lists_devices exact sqrt_down c
           (with_CLDevice (-1) opts_nogap) (environment_cl false) 0).
  - reflexivity.
  - reflexivity.
  - vm_compute. reflexivity.
Defined.

(** X10, witness: the start distribution is to be read from "start.dat". *)
Lemma unknown_start_format_quits_witness :
  exists t0,
    main exact sqrt_down c (with_StartDistFile "start.dat" opts_nogap)
         (environment 0) 0
    = Returned EXIT_SUCCESS
        (t0 ++ [printText ("Reading in initial distribution from: " ++ dq
                           ++ getStartDistFile
                                (with_StartDistFile "start.dat" opts_nogap)
                           ++ dq);
                printText "Unknown format of input file. Will now quit."])%list
    /\ Forall quiet t0.
Proof.
  apply (unknown_start_format_quits exact sqrt_down c
           (with_StartDistFile "start.dat" opts_nogap) (environment 0) 0).
  - reflexivity.
  - left. reflexivity.
  - vm_compute. lia.
  - reflexivity.
  - reflexivity.
  - vm_compute. reflexivity.
Defined.

(** X11, witness: "start.h5" holds 128 cells per axis, the grid size
    is 256. *)
Lemma grid_size_mismatch_quits_witness :
  exists t0,
    main exact sqrt_down c (with_StartDistFile "start.h5" opts_nogap)
         (environment_hdf5 128) 0
    = Returned EXIT_SUCCESS
        (t0 ++ [printText ("Reading in initial distribution from: " ++ dq
                           ++ getStartDistFile
                                (with_StartDistFile "start.h5" opts_nogap)
                           ++ dq);
                cerr (getStartDistFile
                        (with_StartDistFile "start.h5" opts_nogap)
                      ++ " does not match set GridSize.")])%list
    /\ Forall quiet t0.
Proof.
  apply (grid_size_mismatch_quits exact sqrt_down c
           (with_StartDistFile "start.h5" opts_nogap) (environment_hdf5 128) 0).
  - reflexivity.
  - left. reflexivity.
  - vm_compute. lia.
  - reflexivity.
  - vm_compute. reflexivity.
  - vm_compute. discriminate.
Defined.


(** X13, witness: rotation type 2. *)
Lemma maps_form_pipeline_witness :
  match setup exact sqrt_down c opts_gap (environment 0) [] with
  | Go o _ =>
      chain mesh1 (turn_maps o) = Some mesh1
      /\ turn_applies o = map apply (turn_maps o)
  | Halt _ => False
  end.
Proof.
  destruct (setup exact sqrt_down c opts_gap (environment 0) [])
    as [o t'|out] eqn:H.
  - apply (maps_form_pipeline exact sqrt_down c opts_gap (environment 0)
                              [] o t' H).
    vm_compute. split; reflexivity.
  - vm_compute in H. discriminate H.
Defined.

(** X14, witness: rotation type 0 with a vacuum-chamber gap of 32 mm. *)
Lemma rotation_type_0_bypasses_wake_witness :
  match setup exact sqrt_down c (with_RotationType 0 opts_gap)
              (environment 0) [] with
  | Go o _ =>
      rm1 o = new_SourceMap class_RotationMap mesh1 mesh3
      /\ rm2 o = None
      /\ map_out (wm o) = mesh2
      /\ Forall (fun m => map_in m <> mesh2) (turn_maps o)
      /\ chain mesh1 (turn_maps o) = None
  | Halt _ => False
  end.
Proof.
  destruct (setup exact sqrt_down c (with_RotationType 0 opts_gap)
                  (environment 0) [])
    as [o t'|out] eqn:H.
  - apply (rotation_type_0_bypasses_wake exact sqrt_down c
             (with_RotationType 0 opts_gap) (environment 0) [] o t' H).
    reflexivity.
  - vm_compute in H. discriminate H.
Defined.

(** X15, witness: a build with the GUI in which all plots are created. *)
Lemma wake_plot_needs_wake_map_witness :
  match setup exact sqrt_down c opts_gap environment_gui [] with
  | Go o _ =>
      (wpv o = true -> is_Some (wkm o))
      /\ (forall i outstepnr,
            In wpv_updateLine (loop_body opts_gap environment_gui o i
                                         outstepnr).1 ->
            is_Some (wkm o))
  | Halt _ => False
  end.
Proof.
  destruct (setup exact sqrt_down c opts_gap environment_gui [])
    as [o t'|out] eqn:H.
  - exact (wake_plot_needs_wake_map exact sqrt_down c opts_gap
                                    environment_gui [] o t' H).
  - vm_compute in H. discriminate H.
Defined.

(** X16, witness: device number 1, preparing the OpenCL environment
    throws. *)
Lemma opencl_fallback_witness :
  match setup exact sqrt_down c (with_CLDevice 1 opts_gap)
              (environment_cl true) [] with
  | Go o _ =>
      OCLH_active o
      = INOVESA_USE_CL (environment_cl true)
        && (0 <? getCLDevice (with_CLDevice 1 opts_gap))%Z
        && negb (prepareCLEnvironment_throws (environment_cl true))
      /\ (prepareCLEnvironment_throws (environment_cl true) = true ->
          forall k i outstepnr,
            Forall (fun c => is_sync c = false)
                   (turns_trace (with_CLDevice 1 opts_gap)
                                (environment_cl true) k o i outstepnr))
  | Halt _ => False
  end.
Proof.
  destruct (setup exact sqrt_down c (with_CLDevice 1 opts_gap)
                  (environment_cl true) [])
    as [o t'|out] eqn:H.
  - exact (opencl_fallback exact sqrt_down c (with_CLDevice 1 opts_gap)
                           (environment_cl true) [] o t' H).
  - vm_compute in H. discriminate H.
Defined.

(** X17, witness: three turns with an output stride of 0. *)
Lemma no_output_without_stride_witness :
  Forall (fun c => is_output c = false)
         (turns_trace (with_OutSteps 0 opts_gap) (environment 0) 3
                      objects_gap 0 0)
  /\ outstepnr_after (with_OutSteps 0 opts_gap) (environment 0)
                     objects_gap 3 0 0 = 0.
Proof.
  apply (no_output_without_stride (with_OutSteps 0 opts_gap) (environment 0)
                                  objects_gap 3 0 0).
  reflexivity.
Defined.

(** X18, witness: 250 turns with an output stride of 100 give 3 status
    lines. *)
Lemma output_every_outstep_turns_witness :
  Z.of_nat (length (List.filter is_status
                      (turns_trace opts_gap (environment 0) 250
                                   objects_gap 0 0)))
  = cdiv (Z.of_nat 250) (getOutSteps opts_gap)
  /\ outstepnr_after opts_gap (environment 0) objects_gap 250 0 0
     = cdiv (Z.of_nat 250) (getOutSteps opts_gap)
  /\ (forall i, output_due opts_gap i = true <-> (getOutSteps opts_gap | i)).
Proof.
  apply (output_every_outstep_turns opts_gap (environment 0) objects_gap 250).
  - vm_compute. reflexivity.
  - vm_compute. reflexivity.
Defined.

(** X19, witness: one Haissinski iteration with [gap = 0] and no wake
    file. *)
Lemma haissinski_without_wake_map_witness :
  match setup exact sqrt_down c (with_HaissinskiIterations 1 opts_nogap)
              environment_gui [] with
  | Go o t0 =>
      main exact sqrt_down c (with_HaissinskiIterations 1 opts_nogap)
           environment_gui 0
      = Undefined t0
  | Halt _ => False
  end.
Proof.
  destruct (setup exact sqrt_down c (with_HaissinskiIterations 1 opts_nogap)
                  environment_gui [])
    as [o t0|out] eqn:H.
  - apply (haissinski_without_wake_map exact sqrt_down c
             (with_HaissinskiIterations 1 opts_nogap) environment_gui o t0 0 H).
    + reflexivity.
    + vm_compute. lia.
    + vm_compute. reflexivity.
  - vm_compute in H. discriminate H.
Defined.

Lemma opts_long_test :
  forall j, 0 <= j < 4294967296 -> loop_test exact opts_long j = true.
Proof.
  intros j Hj. unfold loop_test, exact. apply ltb_spec.
  assert (loop_bound (fun x => x) opts_long = Qc_of_Z 8589934592) as ->
      by (apply Qc_is_canon; vm_compute; reflexivity).
  apply Qc_of_Z_lt. lia.
Qed.

(** X20, witness: [2^31] steps per period and 4 periods. *)
Lemma loop_never_ends_witness :
  exists t',
    main_loop exact opts_long (environment 0) 5 objects_nogap 0 0 0 []
    = Halt (OutOfFuel t').
Proof.
  apply (loop_never_ends exact opts_long (environment 0) objects_nogap
                         5 0 0 0 [] opts_long_test).
  lia.
Defined.


(** X23, witness: the earlier loop with 2 steps per period and one
    period takes 3 turns. *)
Lemma legacy_loop_floor_witness :
  LegacyMain.main_loop exact false false false false 2 1 1%Qc 10 0 0 []
  = Some (Z.to_nat 3,
          ([] ++ LegacyMain.turns_trace false false false false 1
                                        (Z.to_nat 3) 0)%list).
Proof.
  apply (legacy_loop_floor exact false false false false 2 1 1%Qc
                           exact_on_integers [] 3 10).
  - discriminate.
  - vm_compute. discriminate.
  - vm_compute. reflexivity.
  - lia.
  - vm_compute. lia.
Defined.

End RunExamples.
